(** * Micromamba environment selector: a shallow embedding of [extension.ts]

    The development follows the TypeScript source function by function.
    JavaScript strings are modelled as [string] (code units below 256), the
    [{ [key: string]: string }] objects as [gmap string string], and the
    editor, the file system and the subprocesses as explicit state and
    oracles.  Node's [path] and [os] modules are platform code outside the
    extension: they are a record of functions ([Platform]), with a POSIX
    instance modelled on [path.posix]. *)

From Stdlib Require Import Ascii String ZArith Lia.
From stdpp Require Import base option list gmap strings.

Local Open Scope Z_scope.

(** * Part I: the embedding *)

(** ** JavaScript string primitives used by the extension *)

Module JS.

Definition CR : ascii := "013"%char.
Definition LF : ascii := "010"%char.
Definition dquote : ascii := "034"%char.
Definition backslash : ascii := "092"%char.

(** The character class [[\r\n]] of the regular expressions. *)
Definition isLineBreak (c : ascii) : bool := Ascii.eqb c CR || Ascii.eqb c LF.

(** White space removed by [String.prototype.trim], below code unit 256:
    TAB, LF, VT, FF, CR, SPACE and NBSP. *)
Definition isWhiteSpace (c : ascii) : bool :=
  match c with
  | "009" | "010" | "011" | "012" | "013" | " " | "160" => true
  | _ => false
  end%char.

Fixpoint trimStart (s : string) : string :=
  match s with
  | String c s' => if isWhiteSpace c then trimStart s' else s
  | EmptyString => EmptyString
  end.

Fixpoint trimEnd (s : string) : string :=
  match s with
  | String c s' =>
      match trimEnd s' with
      | EmptyString => if isWhiteSpace c then EmptyString else String c EmptyString
      | r => String c r
      end
  | EmptyString => EmptyString
  end.

(** [s.trim()] *)
Definition trim (s : string) : string := trimEnd (trimStart s).

(** [s.includes(c)] for a one-character search string. *)
Fixpoint includes (c : ascii) (s : string) : bool :=
  match s with
  | String a s' => Ascii.eqb a c || includes c s'
  | EmptyString => false
  end.

(** [s.indexOf(c)]: the index of the first occurrence, [-1] when absent. *)
Fixpoint indexOf (c : ascii) (s : string) : Z :=
  match s with
  | String a s' =>
      if Ascii.eqb a c then 0
      else let i := indexOf c s' in if i <? 0 then -1 else i + 1
  | EmptyString => -1
  end.

Fixpoint take (n : nat) (s : string) : string :=
  match n, s with
  | S n', String c s' => String c (take n' s')
  | _, _ => EmptyString
  end.

Fixpoint drop (n : nat) (s : string) : string :=
  match n, s with
  | S n', String _ s' => drop n' s'
  | _, _ => s
  end.

(** [s.substring(a, b)]: both indices are clamped to [0, length], and
    swapped when [a > b]. *)
Definition substring (s : string) (a b : Z) : string :=
  let len := String.length s in
  let a' := Nat.min (Z.to_nat a) len in
  let b' := Nat.min (Z.to_nat b) len in
  take (Nat.max a' b' - Nat.min a' b') (drop (Nat.min a' b') s).

(** [s.substring(a)] *)
Definition substringFrom (s : string) (a : Z) : string :=
  substring s a (Z.of_nat (String.length s)).

(** [s.startsWith(p)] *)
Fixpoint startsWith (s p : string) : bool :=
  match p, s with
  | EmptyString, _ => true
  | String b p', String a s' => Ascii.eqb a b && startsWith s' p'
  | String _ _, EmptyString => false
  end.

(** The last code unit of [s] is [c]. *)
Fixpoint endsWithChar (c : ascii) (s : string) : bool :=
  match s with
  | EmptyString => false
  | String a EmptyString => Ascii.eqb a c
  | String _ s' => endsWithChar c s'
  end.

(** [s.split(/[\r\n]+/)]: the pieces between maximal runs of CR and LF.
    A run at either end of [s] leaves an empty piece there, and the empty
    string splits into one empty piece. *)
Fixpoint splitLines (s : string) : list string :=
  match s with
  | EmptyString => [EmptyString]
  | String c s' =>
      if isLineBreak c then
        match s' with
        | String c' _ => if isLineBreak c' then splitLines s'
                         else EmptyString :: splitLines s'
        | EmptyString => [EmptyString; EmptyString]
        end
      else
        match splitLines s' with
        | piece :: rest => String c piece :: rest
        | [] => [String c EmptyString]
        end
  end.

(** [s.split(c)] for a one-character separator. *)
Fixpoint split (c : ascii) (s : string) : list string :=
  match s with
  | EmptyString => [EmptyString]
  | String a s' =>
      if Ascii.eqb a c then EmptyString :: split c s'
      else match split c s' with
           | piece :: rest => String a piece :: rest
           | [] => [String a EmptyString]
           end
  end.

(** [l.join(sep)] *)
Fixpoint join (sep : string) (l : list string) : string :=
  match l with
  | [] => EmptyString
  | [x] => x
  | x :: rest => x +:+ sep +:+ join sep rest
  end.

(** [c.toLowerCase()] below code unit 256: A-Z and the Latin-1 capitals
    (0xC0-0xDE without the multiplication sign 0xD7) move up by 32. *)
Definition lowerChar (c : ascii) : ascii :=
  let n := nat_of_ascii c in
  if ((65 <=? n)%nat && (n <=? 90)%nat)
     || ((192 <=? n)%nat && (n <=? 222)%nat && negb (n =? 215)%nat)
  then ascii_of_nat (n + 32) else c.

(** [s.toLowerCase()] *)
Fixpoint toLowerCase (s : string) : string :=
  match s with
  | String c s' => String (lowerChar c) (toLowerCase s')
  | EmptyString => EmptyString
  end.

(** [value.replace(/"/g, '\\"')] *)
Fixpoint escapeQuotes (s : string) : string :=
  match s with
  | String c s' =>
      if Ascii.eqb c dquote then String backslash (String dquote (escapeQuotes s'))
      else String c (escapeQuotes s')
  | EmptyString => EmptyString
  end.

(** A string is truthy when it is not empty. *)
Definition truthy (s : string) : bool := negb (String.eqb s EmptyString).

(** Truthiness of a value that may be [undefined]. *)
Definition truthyOpt (o : option string) : bool :=
  match o with
  | Some s => truthy s
  | None => false
  end.

(** [o || b] where [o] may be [undefined]. *)
Definition orDefault (o : option string) (b : string) : string :=
  match o with
  | Some a => if truthy a then a else b
  | None => b
  end.

End JS.

Definition nl : string := String JS.LF EmptyString.
Definition dq : string := String JS.dquote EmptyString.

(** ** The platform: [process.platform], [os] and [path] *)

Record Platform := {
  isWin : bool;                              (* process.platform === "win32" *)
  os_homedir : string;                       (* os.homedir() *)
  path_sep : ascii;                          (* path.sep *)
  path_normalize : string → string;          (* path.normalize *)
  path_basename : string → string;           (* path.basename *)
  path_join : list string → string;          (* path.join *)
  path_relative : string → string → string;  (* path.relative *)
}.

(** What the extension relies on from [path.normalize]: it never returns the
    empty string (the empty path becomes [.]), it returns normal forms, and
    folding a normal form to lower case leaves it normal. *)
Definition normalize_nonempty (P : Platform) : Prop :=
  ∀ p, path_normalize P p ≠ "".
Definition normalize_projection (P : Platform) : Prop :=
  ∀ p, path_normalize P (path_normalize P p) = path_normalize P p.
Definition normalize_case_stable (P : Platform) : Prop :=
  ∀ p, path_normalize P (JS.toLowerCase (path_normalize P p))
       = JS.toLowerCase (path_normalize P p).

(** ** A model of [path.posix] *)

Module Posix.

(** One step of [normalizeString] on the segment between two separators;
    [res] holds the segments kept so far, the last one first. *)
Definition normStep (allowAboveRoot : bool) (res : list string) (seg : string)
  : list string :=
  if String.eqb seg "" || String.eqb seg "." then res
  else if String.eqb seg ".." then
    match res with
    | top :: rest =>
        if String.eqb top ".." then (if allowAboveRoot then ".." :: res else res)
        else rest
    | [] => if allowAboveRoot then [".."] else []
    end
  else seg :: res.

Definition normSegments (allowAboveRoot : bool) (path : string) : list string :=
  rev (foldl (normStep allowAboveRoot) [] (JS.split "/" path)).

Definition normalizeString (path : string) (allowAboveRoot : bool) : string :=
  JS.join "/" (normSegments allowAboveRoot path).

Definition normalize (path : string) : string :=
  if String.eqb path "" then "."
  else
    let isAbsolute := JS.startsWith path "/" in
    let trailingSeparator := JS.endsWithChar "/" path in
    let p := normalizeString path (negb isAbsolute) in
    if String.eqb p "" then
      (if isAbsolute then "/" else if trailingSeparator then "./" else ".")
    else
      let p := if trailingSeparator then p +:+ "/" else p in
      if isAbsolute then "/" +:+ p else p.

(** [path.posix.basename(p)]: the last non-empty segment. *)
Definition basename (path : string) : string :=
  default "" (last (filter (λ seg, seg ≠ "") (JS.split "/" path))).

(** [path.posix.join(...args)] *)
Definition join (args : list string) : string :=
  let joined := JS.join "/" (filter (λ arg, arg ≠ "") args) in
  if String.eqb joined "" then "." else normalize joined.

Fixpoint stripCommon (from to : list string) : list string * list string :=
  match from, to with
  | f :: from', t :: to' => if String.eqb f t then stripCommon from' to' else (from, to)
  | _, _ => (from, to)
  end.

(** [path.posix.relative(from, to)], both resolved against [cwd]. *)
Definition relative (cwd from to : string) : string :=
  let resolve p := normSegments false (if JS.startsWith p "/" then p else cwd +:+ "/" +:+ p) in
  let '(up, down) := stripCommon (resolve from) (resolve to) in
  JS.join "/" (replicate (length up) ".." ++ down).

Definition platform (home cwd : string) : Platform := {|
  isWin := false;
  os_homedir := home;
  path_sep := "/";
  path_normalize := normalize;
  path_basename := basename;
  path_join := join;
  path_relative := relative cwd;
|}.

End Posix.

(** The POSIX platform of the examples. *)
Definition posix : Platform := Posix.platform "/home/u" "/home/u".

(** ** [normalize] *)

Definition normalize (P : Platform) (raw_path : string) : string :=
  let norm_path := path_normalize P raw_path in
  if isWin P then JS.toLowerCase norm_path else norm_path.

(** ** Configuration: [MambaConfig], the settings and the subprocesses *)

Record MambaConfig := {
  rootPrefix : string;
  exe : string;
  envTxtPath : string;
}.

(** [vscode.workspace.getConfiguration('micromamba-envs')]: each setting may
    be absent. *)
Record Settings := {
  cfg_rootPrefix : option string;
  cfg_micromambaBinary : option string;
  cfg_environmentsTxtPath : option string;
}.

(** What the callback of [cp.exec] receives: the standard output, or an error
    (non-zero exit, spawn failure, timeout) with its message and the standard
    error text. *)
Inductive ExecResult :=
  | ExecOk (stdout : string)
  | ExecErr (message stderr : string).

(** The subprocess oracle: the outcome of running a shell command. *)
Definition Exec := string → ExecResult.

(** ** The state the extension reads and writes *)

Record World := {
  cachedMambaConfig : option MambaConfig;  (* the module-level singleton *)
  execLog : list string;                   (* commands given to cp.exec, oldest first *)
  envCollection : gmap string string;      (* context.environmentVariableCollection *)
  files : gmap string string;              (* the file system: path to content *)
  currentMicromambaEnvPath : option string; (* context.workspaceState *)
  defaultInterpreterPath : option string;  (* python.defaultInterpreterPath *)
  statusBarText : string;
  statusBarTooltip : string;
  shownMessages : list string;             (* error and information notices *)
  consoleLog : list string;                (* console.log and console.error *)
  ranCommands : list string;               (* vscode.commands.executeCommand *)
}.

Definition set_cachedMambaConfig (c : option MambaConfig) (w : World) : World :=
  {| cachedMambaConfig := c; execLog := execLog w;
     envCollection := envCollection w; files := files w;
     currentMicromambaEnvPath := currentMicromambaEnvPath w;
     defaultInterpreterPath := defaultInterpreterPath w;
     statusBarText := statusBarText w; statusBarTooltip := statusBarTooltip w;
     shownMessages := shownMessages w; consoleLog := consoleLog w;
     ranCommands := ranCommands w |}.

Definition log_exec (cmd : string) (w : World) : World :=
  {| cachedMambaConfig := cachedMambaConfig w; execLog := execLog w ++ [cmd];
     envCollection := envCollection w; files := files w;
     currentMicromambaEnvPath := currentMicromambaEnvPath w;
     defaultInterpreterPath := defaultInterpreterPath w;
     statusBarText := statusBarText w; statusBarTooltip := statusBarTooltip w;
     shownMessages := shownMessages w; consoleLog := consoleLog w;
     ranCommands := ranCommands w |}.

Definition set_envCollection (c : gmap string string) (w : World) : World :=
  {| cachedMambaConfig := cachedMambaConfig w; execLog := execLog w;
     envCollection := c; files := files w;
     currentMicromambaEnvPath := currentMicromambaEnvPath w;
     defaultInterpreterPath := defaultInterpreterPath w;
     statusBarText := statusBarText w; statusBarTooltip := statusBarTooltip w;
     shownMessages := shownMessages w; consoleLog := consoleLog w;
     ranCommands := ranCommands w |}.

Definition set_files (f : gmap string string) (w : World) : World :=
  {| cachedMambaConfig := cachedMambaConfig w; execLog := execLog w;
     envCollection := envCollection w; files := f;
     currentMicromambaEnvPath := currentMicromambaEnvPath w;
     defaultInterpreterPath := defaultInterpreterPath w;
     statusBarText := statusBarText w; statusBarTooltip := statusBarTooltip w;
     shownMessages := shownMessages w; consoleLog := consoleLog w;
     ranCommands := ranCommands w |}.

Definition set_currentMicromambaEnvPath (p : option string) (w : World) : World :=
  {| cachedMambaConfig := cachedMambaConfig w; execLog := execLog w;
     envCollection := envCollection w; files := files w;
     currentMicromambaEnvPath := p;
     defaultInterpreterPath := defaultInterpreterPath w;
     statusBarText := statusBarText w; statusBarTooltip := statusBarTooltip w;
     shownMessages := shownMessages w; consoleLog := consoleLog w;
     ranCommands := ranCommands w |}.

Definition set_defaultInterpreterPath (p : option string) (w : World) : World :=
  {| cachedMambaConfig := cachedMambaConfig w; execLog := execLog w;
     envCollection := envCollection w; files := files w;
     currentMicromambaEnvPath := currentMicromambaEnvPath w;
     defaultInterpreterPath := p;
     statusBarText := statusBarText w; statusBarTooltip := statusBarTooltip w;
     shownMessages := shownMessages w; consoleLog := consoleLog w;
     ranCommands := ranCommands w |}.

Definition set_statusBar (text tooltip : string) (w : World) : World :=
  {| cachedMambaConfig := cachedMambaConfig w; execLog := execLog w;
     envCollection := envCollection w; files := files w;
     currentMicromambaEnvPath := currentMicromambaEnvPath w;
     defaultInterpreterPath := defaultInterpreterPath w;
     statusBarText := text; statusBarTooltip := tooltip;
     shownMessages := shownMessages w; consoleLog := consoleLog w;
     ranCommands := ranCommands w |}.

Definition show_message (msg : string) (w : World) : World :=
  {| cachedMambaConfig := cachedMambaConfig w; execLog := execLog w;
     envCollection := envCollection w; files := files w;
     currentMicromambaEnvPath := currentMicromambaEnvPath w;
     defaultInterpreterPath := defaultInterpreterPath w;
     statusBarText := statusBarText w; statusBarTooltip := statusBarTooltip w;
     shownMessages := shownMessages w ++ [msg]; consoleLog := consoleLog w;
     ranCommands := ranCommands w |}.

Definition console (msg : string) (w : World) : World :=
  {| cachedMambaConfig := cachedMambaConfig w; execLog := execLog w;
     envCollection := envCollection w; files := files w;
     currentMicromambaEnvPath := currentMicromambaEnvPath w;
     defaultInterpreterPath := defaultInterpreterPath w;
     statusBarText := statusBarText w; statusBarTooltip := statusBarTooltip w;
     shownMessages := shownMessages w; consoleLog := consoleLog w ++ [msg];
     ranCommands := ranCommands w |}.

Definition run_command (cmd : string) (w : World) : World :=
  {| cachedMambaConfig := cachedMambaConfig w; execLog := execLog w;
     envCollection := envCollection w; files := files w;
     currentMicromambaEnvPath := currentMicromambaEnvPath w;
     defaultInterpreterPath := defaultInterpreterPath w;
     statusBarText := statusBarText w; statusBarTooltip := statusBarTooltip w;
     shownMessages := shownMessages w; consoleLog := consoleLog w;
     ranCommands := ranCommands w ++ [cmd] |}.

(** What lies outside the extension during one call: the settings, the
    workspace folder ([workspaceFolders[0].uri.fsPath] when a folder is open),
    the subprocess oracle, and whether [fs.writeFile] succeeds on a path. *)
Record Env := {
  settings : Settings;
  workspaceFolder : option string;
  exec : Exec;
  writable : string → bool;
}.

(** ** [fetchMambaVarsFromShell] and [getMambaConfig] *)

Definition shellVarsCommand (P : Platform) : string :=
  if isWin P then
    "powershell -Command " +:+ dq +:+ "echo $env:MAMBA_ROOT_PREFIX; echo $env:MAMBA_EXE" +:+ dq
  else
    "bash -l -c " +:+ dq +:+ "echo $MAMBA_ROOT_PREFIX; echo $MAMBA_EXE" +:+ dq.

(** The promise resolves with the two values ([inl]) or rejects ([inr]). *)
Definition fetchMambaVarsFromShell (P : Platform) (run : Exec)
  : (string * string) + string :=
  match run (shellVarsCommand P) with
  | ExecErr message _ => inr message
  | ExecOk stdout =>
      let lines := JS.splitLines (JS.trim stdout) in
      let line0 := default "" (lines !! 0%nat) in
      let line1 := default "" (lines !! 1%nat) in
      inl (if JS.truthy line0 then JS.trim line0 else "",
           if (1 <? length lines)%nat && JS.truthy line1 then JS.trim line1 else "")
  end.

Definition getMambaConfig (P : Platform) (E : Env) (w : World) : MambaConfig * World :=
  match cachedMambaConfig w with
  | Some cached => (cached, w)
  | None =>
      let config := settings E in
      let rootPrefix0 := JS.orDefault (cfg_rootPrefix config) "" in
      let exe0 := JS.orDefault (cfg_micromambaBinary config) "" in
      let envTxtPath0 := JS.orDefault (cfg_environmentsTxtPath config) "" in
      let envTxtPath1 :=
        if negb (JS.truthy envTxtPath0)
        then path_join P [os_homedir P; ".conda"; "environments.txt"]
        else envTxtPath0 in
      let '(rootPrefix1, exe1, w1) :=
        if negb (JS.truthy rootPrefix0) || negb (JS.truthy exe0) then
          let w' := log_exec (shellVarsCommand P) w in
          match fetchMambaVarsFromShell P (exec E) with
          | inl (shellRoot, shellExe) =>
              (if negb (JS.truthy rootPrefix0) && JS.truthy shellRoot
               then shellRoot else rootPrefix0,
               if negb (JS.truthy exe0) && JS.truthy shellExe
               then shellExe else exe0,
               w')
          | inr error =>
              (rootPrefix0, exe0,
               console ("Failed to fetch mamba vars from shell: " +:+ error) w')
          end
        else (rootPrefix0, exe0, w) in
      let exe2 := if negb (JS.truthy exe1) then "micromamba" else exe1 in
      let result := {| rootPrefix := rootPrefix1; exe := exe2; envTxtPath := envTxtPath1 |} in
      (result, set_cachedMambaConfig (Some result) w1)
  end.

(** ** [selectEnvironment]: the catalog, the classification and the picker *)

Record MicromambaEnvItem := {
  label : string;
  description : string;
  envPath : string;
}.

(** An entry of the quick pick: a separator or an environment. *)
Inductive PickerItem :=
  | Separator (title : string)
  | EnvItem (item : MicromambaEnvItem).

(** Step 2: [content.split(/[\r\n]+/).filter(line => line.trim() !== '')]. *)
Definition readEnvironments (content : string) : list string :=
  filter (λ line, JS.trim line ≠ "") (JS.splitLines content).

(** The two arrays and the [activeItem] variable that the [forEach] fills. *)
Record Groups := {
  workspaceItems : list MicromambaEnvItem;
  rootItems : list MicromambaEnvItem;
  activeItem : option MicromambaEnvItem;
}.

(** [currentWorkspacePath && normalizedPath.startsWith(currentWorkspacePath)] *)
Definition underWorkspace (currentWorkspacePath : option string)
    (normalizedPath : string) : bool :=
  match currentWorkspacePath with
  | Some ws => JS.truthy ws && JS.startsWith normalizedPath ws
  | None => false
  end.

(** The item built for one registry line, with its label formatting. *)
Definition makeItem (P : Platform) (currentWorkspacePath : option string)
    (currentActivePath : string) (envPath : string) : MicromambaEnvItem :=
  let normalizedPath := normalize P envPath in
  let label := path_basename P normalizedPath in
  let isActive := String.eqb currentActivePath normalizedPath in
  let isWorkspaceEnv := underWorkspace currentWorkspacePath normalizedPath in
  let icon := if isWorkspaceEnv then "$(project)" else "$(globe)" in
  if isActive then
    {| label := "$(check) " +:+ icon +:+ " " +:+ label;
       description := "(Active) " +:+ normalizedPath;
       envPath := normalizedPath |}
  else
    {| label := icon +:+ " " +:+ label;
       description := normalizedPath;
       envPath := normalizedPath |}.

(** The body of [lines.forEach]. *)
Definition classifyLine (P : Platform) (currentWorkspacePath : option string)
    (currentActivePath normalizedRootPrefix : string)
    (g : Groups) (envPath : string) : Groups :=
  let normalizedPath := normalize P envPath in
  let isActive := String.eqb currentActivePath normalizedPath in
  let item := makeItem P currentWorkspacePath currentActivePath envPath in
  let isWorkspaceEnv := underWorkspace currentWorkspacePath normalizedPath in
  let active := if isActive then Some item else activeItem g in
  if isWorkspaceEnv then
    {| workspaceItems := workspaceItems g ++ [item];
       rootItems := rootItems g;
       activeItem := active |}
  else if JS.truthy normalizedRootPrefix
          && JS.startsWith normalizedPath normalizedRootPrefix then
    {| workspaceItems := workspaceItems g;
       rootItems := rootItems g ++ [item];
       activeItem := active |}
  else
    {| workspaceItems := workspaceItems g;
       rootItems := rootItems g;
       activeItem := active |}.

(** Step 3 of [selectEnvironment]: the context is normalized, then every line
    is classified. *)
Definition classify (P : Platform) (workspace : option string)
    (storedPath : option string) (configRootPrefix : string)
    (lines : list string) : Groups :=
  let currentWorkspacePath := normalize P <$> workspace in
  let currentActivePath :=
    if JS.truthyOpt storedPath then normalize P (default "" storedPath) else "" in
  let normalizedRootPrefix :=
    if JS.truthy configRootPrefix then normalize P configRootPrefix else "" in
  foldl (classifyLine P currentWorkspacePath currentActivePath normalizedRootPrefix)
        {| workspaceItems := []; rootItems := []; activeItem := None |}
        lines.

(** Step 4: the picker list. *)
Definition pickerItems (g : Groups) : list PickerItem :=
  (if (0 <? length (workspaceItems g))%nat
   then Separator "Workspace Environments" :: (EnvItem <$> workspaceItems g)
   else [])
  ++
  (if (0 <? length (rootItems g))%nat
   then Separator "Root / Global Environments" :: (EnvItem <$> rootItems g)
   else []).

(** What [selectEnvironment] leaves on the screen. *)
Inductive Selection :=
  | SelError (message : string)
  | SelInformation (message : string)
  | SelPicker (items : list PickerItem) (highlighted : option MicromambaEnvItem)
              (config : MambaConfig).

Definition selectEnvironment (P : Platform) (E : Env) (w : World) : Selection * World :=
  let '(config, w1) := getMambaConfig P E w in
  match files w1 !! envTxtPath config with
  | None =>
      let msg := "File not found: " +:+ envTxtPath config in
      (SelError msg, show_message msg w1)
  | Some content =>
      let lines := readEnvironments content in
      let g := classify P (workspaceFolder E) (currentMicromambaEnvPath w1)
                 (rootPrefix config) lines in
      let items := pickerItems g in
      if (length items =? 0)%nat then
        let msg := "No matching environments found in workspace or root prefix." in
        (SelInformation msg, show_message msg w1)
      else (SelPicker items (activeItem g) config, w1)
  end.

(** An entry is marked active by the check mark that opens its label. *)
Definition markedActive (item : MicromambaEnvItem) : bool :=
  JS.startsWith (label item) "$(check) ".

Definition pickerMarkedActive (p : PickerItem) : bool :=
  match p with
  | EnvItem item => markedActive item
  | Separator _ => false
  end.

(** How many entries of a group, and of the picker, are marked active. *)
Definition activeCount (items : list MicromambaEnvItem) : nat :=
  length (filter (λ item, markedActive item = true) items).

Definition pickerActiveCount (items : list PickerItem) : nat :=
  length (filter (λ p, pickerMarkedActive p = true) items).

(** ** [parseEnvOutput] *)

(** The body of the [forEach] callback: one line of the subprocess output. *)
Definition parseLine (envs : gmap string string) (line : string) : gmap string string :=
  if negb (JS.truthy line) || negb (JS.includes "=" line) then envs
  else
    let idx := JS.indexOf "=" line in
    let key := JS.trim (JS.substring line 0 idx) in
    let value := JS.trim (JS.substringFrom line (idx + 1)) in
    <[key := value]> envs.

Definition parseEnvOutput (output : string) : gmap string string :=
  foldl parseLine ∅ (JS.splitLines output).

(** ** [writeEnvFile] *)

Definition envFileLine (entry : string * string) : string :=
  entry.1 +:+ "=" +:+ dq +:+ JS.escapeQuotes entry.2 +:+ dq +:+ nl.

(** The text accumulated by the loop over [Object.entries(envs)].  The
    lines follow the enumeration order of the mapping, which the model
    leaves abstract ([map_to_list]). *)
Definition envFileContent (envs : gmap string string) : string :=
  foldl (λ content entry, content +:+ envFileLine entry) "" (map_to_list envs).

Definition writeEnvFile (E : Env) (filepath : string) (envs : gmap string string)
    (w : World) : World :=
  if writable E filepath then set_files (<[filepath := envFileContent envs]> (files w)) w
  else console "Error writing .env" w.

(** ** [setEnvironment] *)

(** The executable: the argument when given, else the cached configuration,
    else the setting, else the literal default. *)
Definition chooseBinary (E : Env) (w : World) (manualExe : option string) : string :=
  if JS.truthyOpt manualExe then JS.orDefault manualExe "micromamba"
  else match cachedMambaConfig w with
       | Some cached => exe cached
       | None => JS.orDefault (cfg_micromambaBinary (settings E)) "micromamba"
       end.

Definition envDumpCommand (P : Platform) (binary envPath : string) : string :=
  if isWin P then
    "powershell -Command " +:+ dq +:+ binary +:+ " run -p '" +:+ envPath
      +:+ "' cmd /c set" +:+ dq
  else
    "bash -c " +:+ dq +:+ binary +:+ " run -p '" +:+ envPath +:+ "' env" +:+ dq.

(** "Fix missing variables for Terminal prompt": the two assignments guarded
    by [!envVars[...]]. *)
Definition fixMissingVariables (P : Platform) (envPath : string)
    (envVars : gmap string string) : gmap string string :=
  let envNameDisplay := path_basename P envPath in
  let envVars1 :=
    if negb (JS.truthyOpt (envVars !! "CONDA_DEFAULT_ENV"))
    then <["CONDA_DEFAULT_ENV" := envNameDisplay]> envVars else envVars in
  if negb (JS.truthyOpt (envVars1 !! "CONDA_PREFIX"))
  then <["CONDA_PREFIX" := envPath]> envVars1 else envVars1.

(** [envCollection.clear()] followed by one [replace] per entry. *)
Definition injectTerminal (envVars : gmap string string) (w : World) : World :=
  set_envCollection
    (foldl (λ coll entry, <[entry.1 := entry.2]> coll) ∅ (map_to_list envVars)) w.

(** The interpreter path written to the Python settings: relative to
    [${workspaceFolder}] when it lies under the workspace. *)
Definition interpreterPath (P : Platform) (rootPath pythonPath : string) : string :=
  if JS.startsWith (normalize P pythonPath) (normalize P rootPath) then
    let relPath := path_relative P rootPath pythonPath in
    "${workspaceFolder}/" +:+ JS.join "/" (JS.split (path_sep P) relPath)
  else pythonPath.

(** Step 2 of the callback, when a workspace folder is open. *)
Definition configurePython (P : Platform) (E : Env) (envPath : string)
    (envVars : gmap string string) (w : World) : World :=
  match workspaceFolder E with
  | None => w
  | Some rootPath =>
      let w1 := writeEnvFile E (path_join P [rootPath; ".env"]) envVars w in
      let prefix := JS.orDefault (envVars !! "CONDA_PREFIX") envPath in
      let pythonPath :=
        if isWin P then path_join P [prefix; "python.exe"]
        else path_join P [prefix; "bin"; "python"] in
      match files w1 !! pythonPath with
      | Some _ =>
          run_command "python.clearWorkspaceInterpreter"
            (set_defaultInterpreterPath (Some (interpreterPath P rootPath pythonPath)) w1)
      | None => w1
      end
  end.

Definition setEnvironment (P : Platform) (E : Env) (w : World)
    (envPath : string) (manualExe : option string) : World :=
  let binary := chooseBinary E w manualExe in
  let envNameDisplay := path_basename P envPath in
  let w1 := set_statusBar ("$(sync~spin) Micromamba: " +:+ envNameDisplay +:+ "...")
              (statusBarTooltip w) w in
  let shellCommand := envDumpCommand P binary envPath in
  let w2 := log_exec shellCommand w1 in
  match exec E shellCommand with
  | ExecErr message stderr =>
      show_message ("Error loading env: " +:+ (if JS.truthy stderr then stderr else message))
        (set_statusBar "$(error) Micromamba: Error" (statusBarTooltip w2)
           (console message w2))
  | ExecOk stdout =>
      let envVars := fixMissingVariables P envPath (parseEnvOutput stdout) in
      let w3 := injectTerminal envVars w2 in
      let w4 := configurePython P E envPath envVars w3 in
      set_statusBar ("$(check) " +:+ envNameDisplay) ("Active Env: " +:+ envPath)
        (set_currentMicromambaEnvPath (Some envPath) w4)
  end.

(** [activate]: the last environment is restored on startup. *)
Definition activate (P : Platform) (E : Env) (w : World) : World :=
  match currentMicromambaEnvPath w with
  | Some lastEnvPath =>
      if JS.truthy lastEnvPath then setEnvironment P E w lastEnvPath None
      else set_statusBar "$(circle-slash) Micromamba" (statusBarTooltip w) w
  | None => set_statusBar "$(circle-slash) Micromamba" (statusBarTooltip w) w
  end.

(** ** Specification-level definitions *)

(** [cutAt c s] is [Some (before, after)] when [s = before ++ c ++ after] and
    [c] does not occur in [before]; [None] when [c] does not occur in [s]. *)
Fixpoint cutAt (c : ascii) (s : string) : option (string * string) :=
  match s with
  | EmptyString => None
  | String a s' =>
      if Ascii.eqb a c then Some (EmptyString, s')
      else match cutAt c s' with
           | Some (before, after) => Some (String a before, after)
           | None => None
           end
  end.

(** No white space at either end. *)
Definition startsWithSpace (s : string) : bool :=
  match s with
  | String c _ => JS.isWhiteSpace c
  | EmptyString => false
  end.

Fixpoint endsWithSpace (s : string) : bool :=
  match s with
  | EmptyString => false
  | String c EmptyString => JS.isWhiteSpace c
  | String _ s' => endsWithSpace s'
  end.

Definition trimmed (s : string) : Prop :=
  startsWithSpace s = false ∧ endsWithSpace s = false.

(** The lines that the catalog keeps. *)
Definition nonBlank (line : string) : Prop := JS.trim line ≠ "".

(** No CR and no LF in the string. *)
Fixpoint noLineBreak (s : string) : bool :=
  match s with
  | String c s' => negb (JS.isLineBreak c) && noLineBreak s'
  | EmptyString => true
  end.

(** A run of CR and LF, possibly empty. *)
Fixpoint lineBreakRun (s : string) : bool :=
  match s with
  | String c s' => JS.isLineBreak c && lineBreakRun s'
  | EmptyString => true
  end.


(** A registry text: an optional leading run of line breaks, then entries
    each followed by a non-empty run, then a last entry. *)
Definition registryText (lead : string) (entries : list (string * string))
    (lastEntry : string) : string :=
  lead +:+ foldr (λ entry text, entry.1 +:+ entry.2 +:+ text) lastEntry entries.

(** A kept segment: not empty, not [.], without separator. *)
Definition segment (seg : string) : Prop :=
  seg ≠ "" ∧ seg ≠ "." ∧ JS.includes "/" seg = false.

(** The shape of the kept segments, last one first: names on top of the
    [..] segments, which only a relative path keeps. *)
Definition normalStack (aar : bool) (res : list string) : Prop :=
  Forall segment res ∧
  ∃ names k, res = names ++ replicate k ".." ∧ (".." ∉ names) ∧ (aar = false → k = 0%nat).





(** ** The accept handler of the picker *)

(** [quickPick.onDidAccept]: the first selected item is activated when it is
    an environment (it has an [envPath]); a separator, or no selection, does
    nothing. *)
Definition acceptSelection (P : Platform) (E : Env) (w : World)
    (config : MambaConfig) (selected : option PickerItem) : World :=
  match selected with
  | Some (EnvItem item) => setEnvironment P E w (envPath item) (Some (exe config))
  | _ => w
  end.

(** The environments that a picker list offers, in order. *)
Definition pickerEnvPaths (items : list PickerItem) : list string :=
  omap (λ p, match p with EnvItem item => Some (envPath item) | Separator _ => None end)
       items.


(** A value that the shell echoes on a line of its own: not empty, without
    line break, without white space at either end. *)
Definition shellValue (s : string) : Prop :=
  s ≠ "" ∧ noLineBreak s = true ∧ trimmed s.

(** ** The earlier revision: [src/src/extension.ts]

    [getMambaConfig], [fetchMambaVarsFromShell], [normalize],
    [parseEnvOutput] and [writeEnvFile] are the same in both revisions.  The
    earlier [selectEnvironment] marks no active entry and labels only the
    workspace entries; the earlier [setEnvironment] adds no default variable
    and writes the absolute interpreter path. *)

Module Legacy.

Record Groups := {
  workspaceItems : list MicromambaEnvItem;
  rootItems : list MicromambaEnvItem;
}.

(** The body of [lines.forEach]. *)
Definition classifyLine (P : Platform) (currentWorkspacePath : option string)
    (normalizedRootPrefix : string) (g : Groups) (envPath : string) : Groups :=
  let normalizedPath := normalize P envPath in
  let label := path_basename P normalizedPath in
  if underWorkspace currentWorkspacePath normalizedPath then
    {| workspaceItems :=
         workspaceItems g ++ [{| label := "$(project) " +:+ label;
                                 description := normalizedPath;
                                 envPath := normalizedPath |}];
       rootItems := rootItems g |}
  else if JS.truthy normalizedRootPrefix
          && JS.startsWith normalizedPath normalizedRootPrefix then
    {| workspaceItems := workspaceItems g;
       rootItems :=
         rootItems g ++ [{| label := label;
                            description := normalizedPath;
                            envPath := normalizedPath |}] |}
  else g.

Definition classify (P : Platform) (workspace : option string)
    (configRootPrefix : string) (lines : list string) : Groups :=
  let currentWorkspacePath := normalize P <$> workspace in
  let normalizedRootPrefix :=
    if JS.truthy configRootPrefix then normalize P configRootPrefix else "" in
  foldl (classifyLine P currentWorkspacePath normalizedRootPrefix)
        {| workspaceItems := []; rootItems := [] |} lines.

Definition pickerItems (g : Groups) : list PickerItem :=
  (if (0 <? length (workspaceItems g))%nat
   then Separator "Workspace Environments" :: (EnvItem <$> workspaceItems g)
   else [])
  ++
  (if (0 <? length (rootItems g))%nat
   then Separator "Root / Global Environments" :: (EnvItem <$> rootItems g)
   else []).

Definition selectEnvironment (P : Platform) (E : Env) (w : World) : Selection * World :=
  let '(config, w1) := getMambaConfig P E w in
  match files w1 !! envTxtPath config with
  | None =>
      let msg := "File not found: " +:+ envTxtPath config in
      (SelError msg, show_message msg w1)
  | Some content =>
      let lines := readEnvironments content in
      let items := pickerItems (classify P (workspaceFolder E) (rootPrefix config) lines) in
      if (length items =? 0)%nat then
        let msg := "No matching environments found in workspace or root prefix." in
        (SelInformation msg, show_message msg w1)
      else (SelPicker items None config, w1)
  end.

(** Step 2 of the callback: the [.env] file and the Python setting. *)
Definition configurePython (P : Platform) (E : Env) (envPath : string)
    (envVars : gmap string string) (w : World) : World :=
  match workspaceFolder E with
  | None => w
  | Some rootPath =>
      let w1 := writeEnvFile E (path_join P [rootPath; ".env"]) envVars w in
      let prefix := JS.orDefault (envVars !! "CONDA_PREFIX") envPath in
      let pythonPath :=
        if isWin P then path_join P [prefix; "python.exe"]
        else path_join P [prefix; "bin"; "python"] in
      match files w1 !! pythonPath with
      | Some _ => set_defaultInterpreterPath (Some pythonPath) w1
      | None =>
          console
            "Environment does not contain Python. Skipping Python extension configuration."
            w1
      end
  end.

Definition setEnvironment (P : Platform) (E : Env) (w : World)
    (envPath : string) (manualExe : option string) : World :=
  let binary := chooseBinary E w manualExe in
  let envNameDisplay := path_basename P envPath in
  let w1 := set_statusBar ("$(sync~spin) Micromamba: " +:+ envNameDisplay +:+ "...")
              (statusBarTooltip w) w in
  let shellCommand := envDumpCommand P binary envPath in
  let w2 := log_exec shellCommand (console ("Executing: " +:+ shellCommand) w1) in
  match exec E shellCommand with
  | ExecErr message stderr =>
      show_message ("Error loading env: " +:+ (if JS.truthy stderr then stderr else message))
        (set_statusBar "$(error) Micromamba: Error" (statusBarTooltip w2)
           (console message w2))
  | ExecOk stdout =>
      let envVars := parseEnvOutput stdout in
      let w3 := injectTerminal envVars w2 in
      let w4 := configurePython P E envPath envVars w3 in
      set_statusBar ("$(check) " +:+ envNameDisplay) ("Active Env: " +:+ envPath)
        (set_currentMicromambaEnvPath (Some envPath) w4)
  end.

End Legacy.

(** ** Sample data of the examples *)

(** A world in which an environment is already active. *)
Definition sampleWorld : World := {|
  cachedMambaConfig := None;
  execLog := [];
  envCollection := <["CONDA_PREFIX" := "/opt/micromamba/envs/old"]> ∅;
  files := <["/home/u/proj/.env" := "CONDA_PREFIX=old"]>
             (<["/home/u/.conda/environments.txt" := "/opt/micromamba/envs/envA"]> ∅);
  currentMicromambaEnvPath := Some "/opt/micromamba/envs/old";
  defaultInterpreterPath := None;
  statusBarText := "";
  statusBarTooltip := "";
  shownMessages := [];
  consoleLog := [];
  ranCommands := [];
|}.

Definition noSettings : Settings := {|
  cfg_rootPrefix := None;
  cfg_micromambaBinary := None;
  cfg_environmentsTxtPath := None;
|}.

(** An environment whose subprocesses all fail to spawn. *)
Definition failingEnv : Env := {|
  settings := noSettings;
  workspaceFolder := Some "/home/u/proj";
  exec := λ _, ExecErr "spawn ENOENT" "";
  writable := λ _, true;
|}.

(** An environment whose subprocesses print two variables. *)
Definition workingEnv : Env := {|
  settings := noSettings;
  workspaceFolder := Some "/home/u/proj";
  exec := λ _, ExecOk ("FOO=bar" +:+ nl +:+ "BAZ=1=2" +:+ nl);
  writable := λ _, true;
|}.

(** A session: the login shell reports the root prefix and the executable,
    the environment manager prints the variables of the environment. *)
Definition sessionEnv : Env := {|
  settings := noSettings;
  workspaceFolder := Some "/home/u/proj";
  exec := λ cmd,
    if String.eqb cmd (shellVarsCommand posix)
    then ExecOk ("/opt/micromamba" +:+ nl +:+ "/usr/bin/micromamba" +:+ nl)
    else ExecOk ("FOO=bar" +:+ nl +:+ "CONDA_PREFIX=/opt/micromamba/envs/envA" +:+ nl);
  writable := λ _, true;
|}.

(** A Windows line ending. *)
Definition crlf : string := String JS.CR nl.


(** Settings and a shell that differ from those of the first call. *)
Definition laterSettings : Settings := {|
  cfg_rootPrefix := Some "/somewhere/else";
  cfg_micromambaBinary := Some "/usr/bin/mamba";
  cfg_environmentsTxtPath := Some "/tmp/envs.txt";
|}.

Definition laterEnv : Env := {|
  settings := laterSettings;
  workspaceFolder := None;
  exec := λ _, ExecOk ("/opt/other" +:+ nl +:+ "/opt/other/bin/micromamba");
  writable := λ _, true;
|}.

(** A case-folding platform that normalizes like POSIX. *)
Definition foldingPosix : Platform := {|
  isWin := true;
  os_homedir := "/home/u";
  path_sep := "/";
  path_normalize := Posix.normalize;
  path_basename := Posix.basename;
  path_join := Posix.join;
  path_relative := Posix.relative "/home/u";
|}.


(** The sample world with an interpreter installed in the environment. *)
Definition pythonWorld : World :=
  set_files (<["/opt/micromamba/envs/envA/bin/python" := ""]> (files sampleWorld)) sampleWorld.

(** * Part II: lemmas *)

(** ** Strings *)

Lemma app_cons (c : ascii) (s t : string) : String c s +:+ t = String c (s +:+ t).
Proof. reflexivity. Qed.

Lemma app_empty_l (t : string) : "" +:+ t = t.
Proof. reflexivity. Qed.

Lemma app_empty_r (s : string) : s +:+ "" = s.
Proof. induction s as [|c s IH]; [done|]. by rewrite app_cons, IH. Qed.

Lemma app_assoc' (s t u : string) : (s +:+ t) +:+ u = s +:+ t +:+ u.
Proof. induction s as [|c s IH]; [done|]. by rewrite !app_cons, IH. Qed.

Lemma truthy_false (s : string) : JS.truthy s = false ↔ s = "".
Proof. destruct s; simpl; split; done. Qed.

Lemma truthy_true (s : string) : JS.truthy s = true ↔ s ≠ "".
Proof. destruct s; simpl; split; done. Qed.

Lemma includes_app (c : ascii) (s t : string) :
  JS.includes c (s +:+ t) = JS.includes c s || JS.includes c t.
Proof.
  induction s as [|a s IH]; [done|].
  rewrite app_cons. simpl. rewrite IH. by rewrite orb_assoc.
Qed.

Lemma string_length_app (s t : string) :
  String.length (s +:+ t) = (String.length s + String.length t)%nat.
Proof. induction s as [|a s IH]; simpl; [done|]. by rewrite IH. Qed.

Lemma take_app_length (s t : string) : JS.take (String.length s) (s +:+ t) = s.
Proof. induction s as [|a s IH]; simpl; [by destruct t|]. by rewrite IH. Qed.

Lemma take_length (s : string) : JS.take (String.length s) s = s.
Proof. induction s as [|a s IH]; simpl; [done|]. by rewrite IH. Qed.

Lemma drop_app_length (s t : string) (c : ascii) :
  JS.drop (S (String.length s)) (s +:+ String c t) = t.
Proof. induction s as [|a s IH]; [by destruct t|]. exact IH. Qed.

Lemma substring_prefix (s t : string) :
  JS.substring (s +:+ t) 0 (Z.of_nat (String.length s)) = s.
Proof.
  unfold JS.substring. rewrite string_length_app, Nat2Z.id. simpl Z.to_nat.
  rewrite Nat.min_0_l, Nat.min_0_l, Nat.max_0_l, Nat.sub_0_r.
  rewrite Nat.min_l by lia.
  replace (JS.drop 0 (s +:+ t)) with (s +:+ t) by (by destruct (s +:+ t)).
  apply take_app_length.
Qed.

Lemma substringFrom_suffix (s t : string) (c : ascii) :
  JS.substringFrom (s +:+ String c t) (Z.of_nat (String.length s) + 1) = t.
Proof.
  unfold JS.substringFrom, JS.substring.
  rewrite string_length_app. simpl String.length. rewrite Nat2Z.id.
  replace (Z.to_nat (Z.of_nat (String.length s) + 1)) with (S (String.length s)) by lia.
  rewrite Nat.min_l by lia. rewrite Nat.min_id.
  rewrite Nat.min_l by lia. rewrite Nat.max_r by lia.
  replace (String.length s + S (String.length t) - S (String.length s))%nat
    with (String.length t) by lia.
  rewrite drop_app_length. apply take_length.
Qed.

(** ** Cutting at the first occurrence *)

Lemma cutAt_None (c : ascii) (s : string) :
  cutAt c s = None ↔ JS.includes c s = false.
Proof.
  induction s as [|a s IH]; simpl; [done|].
  destruct (Ascii.eqb a c); simpl; [done|].
  destruct (cutAt c s) as [[b r]|]; [|done].
  split; [done|]. intros H. apply IH in H. done.
Qed.

Lemma cutAt_app (c : ascii) (before after : string) :
  JS.includes c before = false →
  cutAt c (before +:+ String c after) = Some (before, after).
Proof.
  induction before as [|a b IH]; intros Hinc.
  - rewrite app_empty_l. simpl. by rewrite Ascii.eqb_refl.
  - rewrite app_cons. simpl in *. apply orb_false_iff in Hinc as [Ha Hb].
    rewrite Ha. by rewrite (IH Hb).
Qed.

Lemma cutAt_Some (c : ascii) (s before after : string) :
  cutAt c s = Some (before, after) ↔
  s = before +:+ String c after ∧ JS.includes c before = false.
Proof.
  split.
  - revert before. induction s as [|a s IH]; intros before; simpl; [done|].
    destruct (Ascii.eqb_spec a c) as [->|Hne].
    + by intros [= <- <-].
    + destruct (cutAt c s) as [[b r]|]; [|done].
      intros [= <- <-]. destruct (IH b eq_refl) as [-> Hb].
      split; [done|]. simpl. rewrite Hb.
      by destruct (Ascii.eqb_spec a c).
  - intros [-> Hinc]. by apply cutAt_app.
Qed.

Lemma indexOf_cut (c : ascii) (s before after : string) :
  cutAt c s = Some (before, after) →
  JS.indexOf c s = Z.of_nat (String.length before).
Proof.
  revert before. induction s as [|a s IH]; intros before; simpl; [done|].
  destruct (Ascii.eqb a c); [by intros [= <- <-]|].
  destruct (cutAt c s) as [[b r]|]; [|done].
  intros [= <- <-]. rewrite (IH b eq_refl). simpl String.length.
  destruct (Z.ltb_spec (Z.of_nat (String.length b)) 0); lia.
Qed.

(** The indices computed by [indexOf] and the two [substring] calls are the
    cut at the first occurrence. *)
Lemma cutAt_substring (c : ascii) (s : string) :
  JS.includes c s = true →
  cutAt c s = Some (JS.substring s 0 (JS.indexOf c s),
                    JS.substringFrom s (JS.indexOf c s + 1)).
Proof.
  intros Hinc. destruct (cutAt c s) as [[b r]|] eqn:Hcut.
  - rewrite (indexOf_cut _ _ _ _ Hcut).
    apply cutAt_Some in Hcut as [-> _].
    by rewrite substring_prefix, substringFrom_suffix.
  - apply cutAt_None in Hcut. congruence.
Qed.

(** [parseLine] in terms of the cut: a line with [=] sets the trimmed name
    to the trimmed value, any other line changes nothing. *)
Lemma parseLine_cut (envs : gmap string string) (line : string) :
  parseLine envs line =
  match cutAt "=" line with
  | Some (name, value) => <[JS.trim name := JS.trim value]> envs
  | None => envs
  end.
Proof.
  unfold parseLine. destruct (JS.includes "=" line) eqn:Hinc.
  - rewrite (cutAt_substring _ _ Hinc).
    destruct line; [done|]. done.
  - apply cutAt_None in Hinc. rewrite Hinc. by rewrite orb_true_r.
Qed.

(** ** Splitting into lines *)

Lemma splitLines_nonempty (s : string) : JS.splitLines s ≠ [].
Proof.
  induction s as [|c s IH]; simpl; [done|].
  destruct (JS.isLineBreak c).
  - destruct s as [|c' s']; [done|]. destruct (JS.isLineBreak c'); done.
  - destruct (JS.splitLines s); done.
Qed.

Lemma splitLines_cons_char (c : ascii) (s : string) :
  JS.isLineBreak c = false →
  JS.splitLines (String c s) =
  String c (default "" (head (JS.splitLines s))) :: tail (JS.splitLines s).
Proof.
  intros Hc. simpl. rewrite Hc.
  pose proof (splitLines_nonempty s). by destruct (JS.splitLines s).
Qed.

(** A piece without line breaks in front of any text joins the first piece
    of that text. *)
Lemma splitLines_app (piece s : string) :
  noLineBreak piece = true →
  JS.splitLines (piece +:+ s) =
  (piece +:+ default "" (head (JS.splitLines s))) :: tail (JS.splitLines s).
Proof.
  induction piece as [|c piece IH]; intros Hp.
  - rewrite !app_empty_l. pose proof (splitLines_nonempty s).
    by destruct (JS.splitLines s).
  - simpl in Hp. apply andb_true_iff in Hp as [Hc Hp].
    apply negb_true_iff in Hc.
    rewrite app_cons, (splitLines_cons_char _ _ Hc), (IH Hp). done.
Qed.

Lemma splitLines_break (c : ascii) (s : string) :
  JS.isLineBreak c = true →
  JS.splitLines (String c s) =
  match s with
  | EmptyString => [""; ""]
  | String c' _ => if JS.isLineBreak c' then JS.splitLines s else "" :: JS.splitLines s
  end.
Proof. intros Hc. destruct s; simpl; by rewrite Hc. Qed.

Lemma splitLines_head_break (c : ascii) (s : string) :
  JS.isLineBreak c = true → head (JS.splitLines (String c s)) = Some "".
Proof.
  revert c. induction s as [|c' s IH]; intros c Hc; rewrite (splitLines_break _ _ Hc); [done|].
  destruct (JS.isLineBreak c') eqn:Hc'; [|done].
  by apply IH.
Qed.

(** A line break in front of a text adds at most an empty piece. *)
Lemma filter_splitLines_break (c : ascii) (s : string) :
  JS.isLineBreak c = true →
  filter nonBlank (JS.splitLines (String c s)) = filter nonBlank (JS.splitLines s).
Proof.
  intros Hc. rewrite (splitLines_break _ _ Hc). destruct s as [|c' s']; [done|].
  destruct (JS.isLineBreak c'); [done|].
  rewrite filter_cons_False; [done|]. unfold nonBlank. by intros [].
Qed.

Lemma filter_splitLines_run (run s : string) :
  lineBreakRun run = true →
  filter nonBlank (JS.splitLines (run +:+ s)) = filter nonBlank (JS.splitLines s).
Proof.
  induction run as [|c run IH]; intros Hrun; [done|].
  simpl in Hrun. apply andb_true_iff in Hrun as [Hc Hrun].
  rewrite app_cons, (filter_splitLines_break _ _ Hc). by apply IH.
Qed.

(** An entry followed by a non-empty run of line breaks is the first line,
    and the rest of the text is read on its own. *)
Lemma filter_splitLines_entry (entry run s : string) :
  noLineBreak entry = true → lineBreakRun run = true → run ≠ "" →
  filter nonBlank (JS.splitLines (entry +:+ run +:+ s)) =
  filter nonBlank [entry] ++ filter nonBlank (JS.splitLines s).
Proof.
  intros He Hrun Hne. rewrite (splitLines_app _ _ He).
  destruct run as [|c run]; [done|]. rewrite app_cons.
  simpl in Hrun. apply andb_true_iff in Hrun as [Hc Hrun].
  rewrite (splitLines_head_break _ _ Hc). simpl default. rewrite app_empty_r.
  change (entry :: ?t) with ([entry] ++ t). rewrite filter_app. f_equal.
  rewrite <- (filter_splitLines_run _ s Hrun), <- (filter_splitLines_break _ _ Hc).
  pose proof (splitLines_head_break c (run +:+ s) Hc) as Hh.
  destruct (JS.splitLines (String c (run +:+ s))) as [|h t]; [done|].
  simpl in Hh. injection Hh as ->. simpl tail.
  rewrite filter_cons_False; [done|]. unfold nonBlank. by intros [].
Qed.

Lemma splitLines_noLineBreak (s : string) :
  noLineBreak s = true → JS.splitLines s = [s].
Proof.
  intros Hs. rewrite <- (app_empty_r s) at 1.
  rewrite (splitLines_app _ _ Hs). simpl. by rewrite app_empty_r.
Qed.


(** ** Trimming *)

Lemma trimStart_no_leading_space (s : string) : startsWithSpace (JS.trimStart s) = false.
Proof.
  induction s as [|c s IH]; simpl; [done|].
  destruct (JS.isWhiteSpace c) eqn:Hc; [done|]. simpl. done.
Qed.




(** ** Folding a list of lines into a mapping *)







(** ** Folding the entries of a mapping back into a mapping *)

Lemma foldl_insert_list_to_map (l : list (string * string)) (m : gmap string string) :
  foldl (λ acc entry, <[entry.1 := entry.2]> acc) m l = list_to_map (reverse l) ∪ m.
Proof.
  revert m. induction l as [|[k v] l IH]; intros m.
  - simpl. by rewrite (left_id_L ∅ (∪)).
  - simpl. rewrite IH, reverse_cons, list_to_map_app.
    rewrite <- (assoc_L (∪)). f_equal.
    simpl. by rewrite <- insert_union_l, (left_id_L ∅ (∪)).
Qed.

Lemma foldl_insert_entries (m : gmap string string) :
  foldl (λ acc entry, <[entry.1 := entry.2]> acc) ∅ (map_to_list m) = m.
Proof.
  rewrite foldl_insert_list_to_map, (right_id_L ∅ (∪)).
  rewrite <- (list_to_map_to_list m) at 2.
  apply list_to_map_proper.
  - rewrite fmap_reverse, reverse_Permutation. apply NoDup_fst_map_to_list.
  - apply reverse_Permutation.
Qed.

(** ** The registry text *)

Lemma filter_splitLines_registry (entries : list (string * string)) (lastEntry : string) :
  Forall (λ e, noLineBreak e.1 = true ∧ lineBreakRun e.2 = true ∧ e.2 ≠ "") entries →
  noLineBreak lastEntry = true →
  filter nonBlank
    (JS.splitLines (foldr (λ entry text, entry.1 +:+ entry.2 +:+ text) lastEntry entries))
  = filter nonBlank (entries.*1 ++ [lastEntry]).
Proof.
  intros Hentries Hlast. induction Hentries as [|[e run] entries (He & Hrun & Hne) _ IH].
  - simpl. by rewrite (splitLines_noLineBreak _ Hlast).
  - simpl in *. rewrite (filter_splitLines_entry _ _ _ He Hrun Hne), IH.
    by rewrite <- filter_app.
Qed.

(** Every text is a registry text: runs of line breaks alternate with
    entries. *)
Lemma registryText_complete (content : string) :
  ∃ lead entries lastEntry,
    lineBreakRun lead = true
    ∧ Forall (λ e, noLineBreak e.1 = true ∧ lineBreakRun e.2 = true ∧ e.2 ≠ "") entries
    ∧ noLineBreak lastEntry = true
    ∧ content = registryText lead entries lastEntry.
Proof.
  induction content as [|c s (lead & entries & lastEntry & Hlead & Hentries & Hlast & ->)].
  - by exists "", [], "".
  - destruct (JS.isLineBreak c) eqn:Hc.
    + exists (String c lead), entries, lastEntry.
      split; [by simpl; rewrite Hc|]. done.
    + destruct lead as [|b lead].
      * destruct Hentries as [|[e run] entries (He & Hrun & Hne) Hentries].
        -- exists "", [], (String c lastEntry).
           split; [done|]. split; [done|]. split; [by simpl; rewrite Hc|done].
        -- exists "", ((String c e, run) :: entries), lastEntry.
           split; [done|]. split; [|done].
           constructor; [|done]. simpl in *. by rewrite Hc.
      * exists "", ((String c "", String b lead) :: entries), lastEntry.
        split; [done|]. split; [|done].
        constructor; [|done]. simpl. by rewrite Hc.
Qed.

(** ** The [.env] text and its reader *)





Lemma trimStart_empty_includes (c : ascii) (s : string) :
  JS.isWhiteSpace c = false → JS.trimStart s = "" → JS.includes c s = false.
Proof.
  intros Hc. induction s as [|a s IH]; simpl; [done|].
  destruct (JS.isWhiteSpace a) eqn:Ha; [|done].
  intros Hs. rewrite (IH Hs), orb_false_r.
  destruct (Ascii.eqb_spec a c) as [->|]; congruence.
Qed.

Lemma trimEnd_empty (s : string) :
  startsWithSpace s = false → JS.trimEnd s = "" → s = "".
Proof.
  destruct s as [|c s]; simpl; [done|]. intros ->.
  by destruct (JS.trimEnd s).
Qed.

Lemma blank_includes (c : ascii) (s : string) :
  JS.isWhiteSpace c = false → JS.trim s = "" → JS.includes c s = false.
Proof.
  intros Hc Hs. apply (trimStart_empty_includes _ _ Hc).
  apply trimEnd_empty; [apply trimStart_no_leading_space|done].
Qed.













(** ** Classification *)

Lemma toLowerCase_nonempty (s : string) : s ≠ "" → JS.toLowerCase s ≠ "".
Proof. intros H. destruct s; [by destruct H|]. simpl. discriminate. Qed.

Lemma normalize_ne_empty (P : Platform) (p : string) :
  normalize_nonempty P → normalize P p ≠ "".
Proof.
  intros HP. unfold normalize. specialize (HP p).
  destruct (isWin P); [by apply toLowerCase_nonempty|done].
Qed.

Lemma startsWith_app (p s : string) : JS.startsWith (p +:+ s) p = true.
Proof.
  induction p as [|c p IH]; [by destruct s|]. rewrite app_cons. simpl.
  by rewrite Ascii.eqb_refl, IH.
Qed.

Section classification.

Variable P : Platform.
Variable currentWorkspacePath : option string.
Variables currentActivePath normalizedRootPrefix : string.

Let mk := makeItem P currentWorkspacePath currentActivePath.
Let step := classifyLine P currentWorkspacePath currentActivePath normalizedRootPrefix.
Let inWorkspace (line : string) : Prop :=
  underWorkspace currentWorkspacePath (normalize P line) = true.
Let inRoot (line : string) : Prop :=
  underWorkspace currentWorkspacePath (normalize P line) = false
  ∧ JS.truthy normalizedRootPrefix
    && JS.startsWith (normalize P line) normalizedRootPrefix = true.
Let isActive (line : string) : Prop := currentActivePath = normalize P line.

Lemma makeItem_envPath (line : string) : envPath (mk line) = normalize P line.
Proof.
  unfold mk, makeItem.
  by destruct (String.eqb currentActivePath (normalize P line)).
Qed.

Lemma makeItem_marked (line : string) :
  markedActive (mk line) = true ↔ currentActivePath = normalize P line.
Proof.
  unfold mk, makeItem, markedActive.
  destruct (String.eqb_spec currentActivePath (normalize P line)) as [Heq|Hne].
  - split; [done|]. intros _. simpl label. apply startsWith_app.
  - split; [|done]. simpl label.
    by destruct (underWorkspace currentWorkspacePath (normalize P line)).
Qed.

Lemma classify_workspaceItems (lines : list string) (g : Groups) :
  workspaceItems (foldl step g lines) = workspaceItems g ++ (mk <$> filter inWorkspace lines).
Proof.
  revert g. induction lines as [|line lines IH]; intros g; simpl.
  - by rewrite app_nil_r.
  - rewrite IH, filter_cons. unfold step, classifyLine.
    destruct (decide (inWorkspace line)) as [Hw|Hw]; unfold inWorkspace in Hw.
    + rewrite Hw. simpl. by rewrite <- app_assoc.
    + apply not_true_is_false in Hw. rewrite Hw.
      by destruct (JS.truthy normalizedRootPrefix && _).
Qed.

Lemma classify_rootItems (lines : list string) (g : Groups) :
  rootItems (foldl step g lines) = rootItems g ++ (mk <$> filter inRoot lines).
Proof.
  revert g. induction lines as [|line lines IH]; intros g; simpl.
  - by rewrite app_nil_r.
  - rewrite IH, filter_cons. unfold step, classifyLine.
    destruct (decide (inRoot line)) as [[Hw Hr]|Hr]; unfold inRoot in *.
    + rewrite Hw, Hr. simpl. by rewrite <- app_assoc.
    + destruct (underWorkspace currentWorkspacePath (normalize P line)); [done|].
      destruct (JS.truthy normalizedRootPrefix && _); [|done].
      by destruct Hr.
Qed.

Lemma classify_activeItem (lines : list string) (g : Groups) :
  activeItem (foldl step g lines) =
  match last (filter isActive lines) with
  | Some line => Some (mk line)
  | None => activeItem g
  end.
Proof.
  revert g. induction lines as [|line lines IH]; intros g; simpl; [done|].
  rewrite IH, filter_cons.
  assert (activeItem (step g line)
          = if decide (isActive line) then Some (mk line) else activeItem g) as Hstep.
  { unfold step, classifyLine, isActive.
    destruct (String.eqb_spec currentActivePath (normalize P line));
      destruct (decide _); try done;
      destruct (underWorkspace _ _); try done;
      by destruct (JS.truthy normalizedRootPrefix && _). }
  rewrite Hstep. destruct (decide (isActive line)).
  - rewrite last_cons. by destruct (last (filter isActive lines)).
  - done.
Qed.

Lemma activeCount_groups (lines : list string) :
  (activeCount (mk <$> filter inWorkspace lines)
   + activeCount (mk <$> filter inRoot lines)
   ≤ length (filter isActive lines))%nat.
Proof.
  unfold activeCount.
  induction lines as [|line lines IH]; [done|].
  rewrite !filter_cons.
  assert (inWorkspace line → ¬ inRoot line) as Hdisj.
  { unfold inWorkspace, inRoot. intros -> [? _]. done. }
  pose proof (makeItem_marked line) as Hm.
  destruct (decide (inWorkspace line)) as [Hw|Hw];
    destruct (decide (inRoot line)) as [Hr|Hr];
    destruct (decide (isActive line)) as [Ha|Ha]; unfold isActive in Ha;
    try (by destruct (Hdisj Hw Hr));
    rewrite ?fmap_cons, ?filter_cons;
    repeat (destruct (decide (markedActive (mk line) = true)) as [Hd|Hd];
            [try (apply Hm in Hd; done)|try (destruct Hd; by apply Hm)]);
    simpl; lia.
Qed.

End classification.

Lemma filter_eq_absent {A B} `{EqDecision B} (f : A → B) (b : B) (l : list A) :
  b ∉ f <$> l → filter (λ x, b = f x) l = [].
Proof.
  induction l as [|x l IH]; [done|].
  rewrite fmap_cons, not_elem_of_cons. intros [Hx Hl].
  rewrite filter_cons. destruct (decide (b = f x)); [done|]. by apply IH.
Qed.

Lemma filter_eq_NoDup {A B} `{EqDecision B} (f : A → B) (b : B) (l : list A) :
  NoDup (f <$> l) → (length (filter (λ x, b = f x) l) ≤ 1)%nat.
Proof.
  induction l as [|x l IH]; [simpl; lia|].
  rewrite fmap_cons, NoDup_cons. intros [Hx Hl]. specialize (IH Hl).
  rewrite filter_cons. destruct (decide (b = f x)) as [->|]; [|done].
  simpl. rewrite (filter_eq_absent f (f x) l Hx). simpl. lia.
Qed.

Lemma filter_marked_EnvItem (items : list MicromambaEnvItem) :
  pickerActiveCount (EnvItem <$> items) = activeCount items.
Proof.
  unfold pickerActiveCount, activeCount.
  induction items as [|item items IH]; [done|].
  rewrite fmap_cons, !filter_cons. simpl pickerMarkedActive.
  destruct (decide (markedActive item = true)); simpl; by rewrite IH.
Qed.

Lemma pickerActiveCount_pickerItems (g : Groups) :
  pickerActiveCount (pickerItems g)
  = (activeCount (workspaceItems g) + activeCount (rootItems g))%nat.
Proof.
  assert (∀ title items,
    pickerActiveCount (if (0 <? length items)%nat
                       then Separator title :: (EnvItem <$> items) else [])
    = activeCount items) as Hgroup.
  { intros title [|item items]; [done|].
    change (pickerActiveCount (Separator title :: (EnvItem <$> item :: items))
            = activeCount (item :: items)).
    rewrite <- filter_marked_EnvItem. unfold pickerActiveCount.
    by rewrite filter_cons_False by done. }
  unfold pickerItems. unfold pickerActiveCount at 1.
  rewrite filter_app, length_app. fold (pickerActiveCount).
  f_equal; apply Hgroup.
Qed.

(** ** The POSIX model satisfies what the extension relies on *)

Section posix_facts.

Lemma split_nonempty (c : ascii) (s : string) : JS.split c s ≠ [].
Proof.
  induction s as [|a s IH]; simpl; [done|].
  destruct (Ascii.eqb a c); [done|]. by destruct (JS.split c s).
Qed.

Lemma split_pieces (c : ascii) (s piece : string) :
  piece ∈ JS.split c s → JS.includes c piece = false.
Proof.
  revert piece. induction s as [|a s IH]; intros piece; simpl.
  - by intros ->%list_elem_of_singleton.
  - destruct (Ascii.eqb a c) eqn:Ha.
    + intros [->|H]%elem_of_cons; [done|]. by apply IH.
    + pose proof (split_nonempty c s) as Hne.
      destruct (JS.split c s) as [|h t]; [done|].
      intros [->|H]%elem_of_cons.
      * simpl. rewrite Ha. apply IH. left.
      * apply IH. by right.
Qed.

Lemma split_no_sep (c : ascii) (s : string) :
  JS.includes c s = false → JS.split c s = [s].
Proof.
  induction s as [|a s IH]; simpl; [done|].
  intros [Ha Hs]%orb_false_iff. by rewrite Ha, (IH Hs).
Qed.

Lemma split_app_sep (c : ascii) (s t : string) :
  JS.includes c s = false → JS.split c (s +:+ String c t) = s :: JS.split c t.
Proof.
  induction s as [|a s IH]; intros Hs.
  - rewrite app_empty_l. simpl. by rewrite Ascii.eqb_refl.
  - simpl in Hs. apply orb_false_iff in Hs as [Ha Hs].
    rewrite app_cons. simpl. by rewrite Ha, (IH Hs).
Qed.

Lemma split_trailing_sep (c : ascii) (s : string) :
  JS.split c (s +:+ String c "") = JS.split c s ++ [""].
Proof.
  induction s as [|a s IH].
  - rewrite app_empty_l. simpl. by rewrite Ascii.eqb_refl.
  - rewrite app_cons. simpl. destruct (Ascii.eqb a c); [by rewrite IH|].
    rewrite IH. pose proof (split_nonempty c s). by destruct (JS.split c s).
Qed.

Lemma split_join (c : ascii) (l : list string) :
  l ≠ [] → Forall (λ seg, JS.includes c seg = false) l →
  JS.split c (JS.join (String c "") l) = l.
Proof.
  intros Hne Hl. induction Hl as [|x l Hx Hl IH]; [done|].
  destruct l as [|y l].
  - simpl. by apply split_no_sep.
  - change (JS.join (String c "") (x :: y :: l))
      with (x +:+ String c (JS.join (String c "") (y :: l))).
    rewrite (split_app_sep _ _ _ Hx). f_equal. by apply IH.
Qed.

Lemma endsWithChar_app (c : ascii) (s t : string) :
  t ≠ "" → JS.endsWithChar c (s +:+ t) = JS.endsWithChar c t.
Proof.
  intros Ht. induction s as [|a s IH]; [done|].
  rewrite app_cons. simpl. rewrite IH.
  destruct (s +:+ t) eqn:Hst; [|done]. destruct s; [|done]. by destruct t.
Qed.

Lemma endsWithChar_absent (c : ascii) (s : string) :
  JS.includes c s = false → JS.endsWithChar c s = false.
Proof.
  induction s as [|a s IH]; simpl; [done|].
  intros [Ha Hs]%orb_false_iff. destruct s; [done|]. by apply IH.
Qed.

Lemma startsWith_char (c a : ascii) (s : string) :
  JS.startsWith (String a s) (String c "") = Ascii.eqb a c.
Proof. simpl. destruct s; by rewrite andb_true_r. Qed.

Lemma normStep_skip (aar : bool) (res : list string) (seg : string) :
  seg = "" ∨ seg = "." → Posix.normStep aar res seg = res.
Proof. by intros [-> | ->]. Qed.

Lemma normStep_push (aar : bool) (res : list string) (seg : string) :
  seg ≠ "" → seg ≠ "." → seg ≠ ".." → Posix.normStep aar res seg = seg :: res.
Proof.
  intros H1 H2 H3. unfold Posix.normStep.
  destruct (String.eqb_spec seg ""); [done|].
  destruct (String.eqb_spec seg "."); [done|].
  destruct (String.eqb_spec seg ".."); done.
Qed.

Lemma normalStack_nil (aar : bool) : normalStack aar [].
Proof. split; [done|]. exists [], 0%nat. split; [done|]. split; [|done]. apply not_elem_of_nil. Qed.

Lemma segment_dotdot : segment "..".
Proof. done. Qed.

Lemma normStep_normal (aar : bool) (res : list string) (seg : string) :
  JS.includes "/" seg = false → normalStack aar res →
  normalStack aar (Posix.normStep aar res seg).
Proof.
  intros Hseg [Hall (names & k & -> & Hnames & Hk)].
  destruct (decide (seg = "" ∨ seg = ".")) as [Hskip|Hkeep].
  { rewrite (normStep_skip _ _ _ Hskip). split; [done|]. by exists names, k. }
  assert (seg ≠ "" ∧ seg ≠ ".") as [H1 H2] by (split; intros ->; apply Hkeep; auto).
  destruct (decide (seg = "..")) as [->|H3].
  - unfold Posix.normStep. simpl.
    destruct names as [|top names].
    + destruct k as [|k]; simpl.
      * destruct aar.
        -- split; [by repeat constructor|]. exists [], 1%nat. split; [done|].
           split; [apply not_elem_of_nil|done].
        -- apply normalStack_nil.
      * destruct aar; [|by specialize (Hk eq_refl)].
        split; [constructor; [apply segment_dotdot|done]|].
        exists [], (S (S k)). split; [done|]. split; [apply not_elem_of_nil|done].
    + apply not_elem_of_cons in Hnames as [Htop Hnames].
      simpl. destruct (String.eqb_spec top ".."); [congruence|].
      split; [by inversion Hall|]. by exists names, k.
  - rewrite (normStep_push _ _ _ H1 H2 H3). split.
    + constructor; [done|done].
    + exists (seg :: names), k. split; [done|]. split; [|done].
      apply not_elem_of_cons. split; [congruence|done].
Qed.

Lemma foldl_normStep_normal (aar : bool) (segs res : list string) :
  Forall (λ seg, JS.includes "/" seg = false) segs → normalStack aar res →
  normalStack aar (foldl (Posix.normStep aar) res segs).
Proof.
  intros Hsegs. revert res. induction Hsegs as [|seg segs Hseg _ IH]; intros res Hres.
  - done.
  - simpl. by apply IH, normStep_normal.
Qed.

Lemma foldl_normStep_dots (k : nat) (j : nat) :
  foldl (Posix.normStep true) (replicate j "..") (replicate k "..")
  = replicate (k + j) "..".
Proof.
  revert j. induction k as [|k IH]; intros j; [done|].
  simpl replicate at 2. simpl foldl.
  assert (Posix.normStep true (replicate j "..") ".." = replicate (S j) "..") as ->.
  { by destruct j. }
  rewrite IH. f_equal. lia.
Qed.

Lemma foldl_normStep_names (aar : bool) (names res : list string) :
  Forall segment names → ".." ∉ names →
  foldl (Posix.normStep aar) res (rev names) = names ++ res.
Proof.
  intros Hall. revert res. induction Hall as [|seg names (H1 & H2 & _) _ IH]; intros res Hdots.
  - done.
  - apply not_elem_of_cons in Hdots as [H3 Hdots].
    simpl rev. rewrite foldl_app, (IH _ Hdots). simpl.
    rewrite normStep_push; [done|done|done|congruence].
Qed.

(** Normalizing the kept segments again changes nothing. *)
Lemma foldl_normStep_fixed (aar : bool) (res : list string) :
  normalStack aar res → foldl (Posix.normStep aar) [] (rev res) = res.
Proof.
  intros [Hall (names & k & -> & Hnames & Hk)].
  rewrite rev_app_distr, foldl_app.
  assert (rev (replicate k "..") = replicate k (".." : string)) as ->.
  { clear. induction k as [|k IH]; [done|]. simpl. rewrite IH.
    clear. induction k as [|k IH]; [done|]. simpl. by rewrite IH. }
  assert (foldl (Posix.normStep aar) [] (replicate k "..") = replicate k "..") as ->.
  { destruct aar.
    - exact (eq_trans (foldl_normStep_dots k 0)
               (f_equal (λ n, replicate n "..") (Nat.add_0_r k))).
    - by rewrite (Hk eq_refl). }
  apply foldl_normStep_names; [|done].
  apply Forall_app in Hall. by destruct Hall.
Qed.

End posix_facts.

Section posix_normalize.

Lemma join_cons (x : string) (l : list string) :
  JS.join "/" (x :: l) = x +:+ (if decide (l = []) then "" else "/" +:+ JS.join "/" l).
Proof. destruct l; simpl; [by rewrite app_empty_r|done]. Qed.

Lemma app_nonempty_l (s t : string) : s ≠ "" → s +:+ t ≠ "".
Proof. destruct s; [done|]. by rewrite app_cons. Qed.

Lemma app_nonempty_r (s t : string) : t ≠ "" → s +:+ t ≠ "".
Proof. destruct s; [done|]. by rewrite app_cons. Qed.

Lemma join_segments_nonempty (l : list string) :
  Forall segment l → l ≠ [] → JS.join "/" l ≠ "".
Proof.
  intros Hl Hne. destruct Hl as [|x l (Hx & _) _]; [done|].
  rewrite join_cons. by apply app_nonempty_l.
Qed.

Lemma join_segments_relative (l : list string) (t : string) :
  Forall segment l → l ≠ [] → JS.startsWith (JS.join "/" l +:+ t) "/" = false.
Proof.
  intros Hl Hne. destruct Hl as [|x l (Hx & _ & Hsep) _]; [done|].
  rewrite join_cons. destruct x as [|c x]; [done|].
  rewrite !app_cons, startsWith_char. simpl in Hsep.
  by apply orb_false_iff in Hsep as [-> _].
Qed.

Lemma join_segments_no_trailing (l : list string) :
  Forall segment l → l ≠ [] → JS.endsWithChar "/" (JS.join "/" l) = false.
Proof.
  intros Hl Hne. induction Hl as [|x l (Hx & _ & Hsep) Hl IH]; [done|].
  rewrite join_cons. destruct (decide (l = [])) as [->|Hl'].
  - rewrite app_empty_r. by apply endsWithChar_absent.
  - rewrite endsWithChar_app.
    + rewrite endsWithChar_app; [by apply IH|]. by apply join_segments_nonempty.
    + by apply app_nonempty_l.
Qed.

Lemma foldl_normStep_empty_front (aar : bool) (segs : list string) :
  foldl (Posix.normStep aar) [] ("" :: segs) = foldl (Posix.normStep aar) [] segs.
Proof. done. Qed.

Lemma foldl_normStep_empty_back (aar : bool) (segs : list string) :
  foldl (Posix.normStep aar) [] (segs ++ [""]) = foldl (Posix.normStep aar) [] segs.
Proof. by rewrite foldl_app. Qed.

Lemma segment_no_sep (l : list string) :
  Forall segment l → Forall (λ seg, JS.includes "/" seg = false) l.
Proof. intros H. eapply Forall_impl; [exact H|]. by intros seg (_ & _ & ?). Qed.

(** The path built from kept segments is read back as the same segments. *)
Lemma normSegments_rendered (abs tr : bool) (l : list string) :
  Forall segment l → l ≠ [] → normalStack (negb abs) (rev l) →
  let body := JS.join "/" l in
  let p := if tr then body +:+ "/" else body in
  let r := if abs then "/" +:+ p else p in
  r ≠ "" ∧ JS.startsWith r "/" = abs ∧ JS.endsWithChar "/" r = tr
  ∧ Posix.normSegments (negb abs) r = l.
Proof.
  intros Hl Hne Hstack body p r.
  pose proof (join_segments_nonempty l Hl Hne) as Hbody.
  assert (p ≠ "") as Hp.
  { unfold p. destruct tr; [by apply app_nonempty_l|done]. }
  assert (JS.endsWithChar "/" p = tr) as Hptr.
  { unfold p. destruct tr; [by rewrite endsWithChar_app|].
    by apply join_segments_no_trailing. }
  assert (JS.split "/" p = l ++ (if tr then [""] else [])) as Hsplit.
  { unfold p, body. destruct tr.
    - rewrite split_trailing_sep, split_join; [done|done|by apply segment_no_sep].
    - rewrite app_nil_r. apply split_join; [done|by apply segment_no_sep]. }
  assert (foldl (Posix.normStep (negb abs)) [] (JS.split "/" p) = rev l) as Hfold.
  { rewrite Hsplit.
    assert (foldl (Posix.normStep (negb abs)) [] (l ++ (if tr then [""] else []))
            = foldl (Posix.normStep (negb abs)) [] l) as ->.
    { destruct tr; [apply foldl_normStep_empty_back|by rewrite app_nil_r]. }
    rewrite <- (rev_involutive l) at 1. by apply foldl_normStep_fixed. }
  unfold r. destruct abs.
  - split; [by apply app_nonempty_r|].
    split; [change ("/" +:+ p) with (String "/" p); by rewrite startsWith_char|].
    split; [by rewrite endsWithChar_app|].
    unfold Posix.normSegments. change ("/" +:+ p) with (String "/" p).
    simpl JS.split. rewrite foldl_normStep_empty_front, Hfold.
    apply rev_involutive.
  - split; [done|]. split.
    { unfold p, body. destruct tr.
      - by apply join_segments_relative.
      - rewrite <- (app_empty_r (JS.join "/" l)). by apply join_segments_relative. }
    split; [done|].
    unfold Posix.normSegments. rewrite Hfold. apply rev_involutive.
Qed.

Lemma posix_normalize_rendered (abs tr : bool) (l : list string) :
  Forall segment l → l ≠ [] → normalStack (negb abs) (rev l) →
  let body := JS.join "/" l in
  let p := if tr then body +:+ "/" else body in
  let r := if abs then "/" +:+ p else p in
  Posix.normalize r = r.
Proof.
  intros Hl Hne Hstack body p r.
  destruct (normSegments_rendered abs tr l Hl Hne Hstack) as (Hr & Habs & Htr & Hsegs).
  fold body in Hr, Habs, Htr, Hsegs. fold p in Hr, Habs, Htr, Hsegs.
  fold r in Hr, Habs, Htr, Hsegs.
  unfold Posix.normalize, Posix.normalizeString.
  destruct (String.eqb_spec r ""); [done|].
  rewrite Habs, Htr, Hsegs. fold body.
  destruct (String.eqb_spec body "") as [Hb|Hb]; [|done].
  by destruct (join_segments_nonempty l Hl Hne).
Qed.

Lemma posix_normalize_shape (path : string) :
  Posix.normalize path = "." ∨ Posix.normalize path = "/" ∨ Posix.normalize path = "./"
  ∨ ∃ (abs tr : bool) (l : list string), Forall segment l ∧ l ≠ [] ∧ normalStack (negb abs) (rev l)
      ∧ Posix.normalize path =
        (let body := JS.join "/" l in
         let p := if tr then body +:+ "/" else body in
         if abs then "/" +:+ p else p).
Proof.
  unfold Posix.normalize, Posix.normalizeString, Posix.normSegments.
  destruct (String.eqb_spec path ""); [by left|].
  set (abs := JS.startsWith path "/"). set (tr := JS.endsWithChar "/" path).
  set (st := foldl (Posix.normStep (negb abs)) [] (JS.split "/" path)).
  assert (normalStack (negb abs) st) as Hst.
  { apply foldl_normStep_normal; [|apply normalStack_nil].
    apply Forall_forall. intros seg. apply split_pieces. }
  destruct (String.eqb_spec (JS.join "/" (rev st)) "") as [Hb|Hb].
  - destruct abs; [by right; left|]. destruct tr; [by right; right; left|by left].
  - right; right; right. exists abs, tr, (rev st).
    assert (Forall segment (rev st)) as Hall.
    { destruct Hst as [Hall _]. apply Forall_forall. intros seg Hseg.
      rewrite Forall_forall in Hall. apply Hall.
      apply list_elem_of_In. apply in_rev. by apply list_elem_of_In. }
    split; [done|]. split; [by intros Hnil; rewrite Hnil in Hb|].
    split; [by rewrite rev_involutive|done].
Qed.

Lemma posix_normalize_nonempty (path : string) : Posix.normalize path ≠ "".
Proof.
  destruct (posix_normalize_shape path) as [->|[->|[->|(abs & tr & l & Hl & Hne & Hst & ->)]]];
    [done|done|done|].
  by destruct (normSegments_rendered abs tr l Hl Hne Hst) as (Hr & _).
Qed.

Lemma posix_normalize_idempotent (path : string) :
  Posix.normalize (Posix.normalize path) = Posix.normalize path.
Proof.
  destruct (posix_normalize_shape path) as [->|[->|[->|(abs & tr & l & Hl & Hne & Hst & ->)]]];
    [done|done|done|].
  by apply posix_normalize_rendered.
Qed.

End posix_normalize.

(** ** Lower-casing and the POSIX model *)


Lemma lowerChar_sep (c : ascii) : Ascii.eqb (JS.lowerChar c) "/" = Ascii.eqb c "/".
Proof. destruct c as [[] [] [] [] [] [] [] []]; reflexivity. Qed.

Lemma lowerChar_dot (c : ascii) : Ascii.eqb (JS.lowerChar c) "." = Ascii.eqb c ".".
Proof. destruct c as [[] [] [] [] [] [] [] []]; reflexivity. Qed.


Lemma toLowerCase_app (s t : string) :
  JS.toLowerCase (s +:+ t) = JS.toLowerCase s +:+ JS.toLowerCase t.
Proof. induction s as [|c s IH]; [done|]. rewrite app_cons. simpl. by rewrite IH. Qed.

Lemma toLowerCase_eqb_empty (s : string) :
  String.eqb (JS.toLowerCase s) "" = String.eqb s "".
Proof. by destruct s. Qed.

Lemma toLowerCase_eqb_dot (s : string) :
  String.eqb (JS.toLowerCase s) "." = String.eqb s ".".
Proof.
  destruct s as [|c s]; [done|]. simpl. rewrite lowerChar_dot. by destruct s.
Qed.

Lemma toLowerCase_eqb_dotdot (s : string) :
  String.eqb (JS.toLowerCase s) ".." = String.eqb s "..".
Proof.
  destruct s as [|c s]; [done|]. simpl. rewrite lowerChar_dot.
  destruct (Ascii.eqb c "."); [apply toLowerCase_eqb_dot|done].
Qed.

Lemma toLowerCase_startsWith_sep (s : string) :
  JS.startsWith (JS.toLowerCase s) "/" = JS.startsWith s "/".
Proof.
  destruct s as [|c s]; [done|]. simpl JS.toLowerCase.
  by rewrite !startsWith_char, lowerChar_sep.
Qed.

Lemma toLowerCase_endsWith_sep (s : string) :
  JS.endsWithChar "/" (JS.toLowerCase s) = JS.endsWithChar "/" s.
Proof.
  induction s as [|c s IH]; [done|]. simpl.
  destruct s as [|c' s]; [apply lowerChar_sep|]. exact IH.
Qed.

Lemma toLowerCase_split (s : string) :
  JS.split "/" (JS.toLowerCase s) = JS.toLowerCase <$> JS.split "/" s.
Proof.
  induction s as [|c s IH]; [done|]. simpl. rewrite lowerChar_sep, IH.
  destruct (Ascii.eqb c "/"); [done|].
  pose proof (split_nonempty "/" s) as Hne. by destruct (JS.split "/" s).
Qed.

Lemma toLowerCase_join (l : list string) :
  JS.join "/" (JS.toLowerCase <$> l) = JS.toLowerCase (JS.join "/" l).
Proof.
  induction l as [|x l IH]; [done|]. destruct l as [|y l]; [done|].
  change (JS.join "/" (JS.toLowerCase <$> x :: y :: l))
    with (JS.toLowerCase x +:+ "/" +:+ JS.join "/" (JS.toLowerCase <$> y :: l)).
  rewrite IH.
  change (JS.join "/" (x :: y :: l)) with (x +:+ "/" +:+ JS.join "/" (y :: l)).
  by rewrite !toLowerCase_app.
Qed.

Lemma toLowerCase_normStep (aar : bool) (res : list string) (seg : string) :
  Posix.normStep aar (JS.toLowerCase <$> res) (JS.toLowerCase seg)
  = JS.toLowerCase <$> Posix.normStep aar res seg.
Proof.
  unfold Posix.normStep.
  rewrite toLowerCase_eqb_empty, toLowerCase_eqb_dot, toLowerCase_eqb_dotdot.
  destruct (String.eqb seg "" || String.eqb seg "."); [done|].
  destruct (String.eqb seg ".."); [|done].
  destruct res as [|top rest]; [by destruct aar|].
  rewrite fmap_cons, toLowerCase_eqb_dotdot.
  destruct (String.eqb top ".."); [by destruct aar|done].
Qed.

Lemma toLowerCase_foldl_normStep (aar : bool) (segs res : list string) :
  foldl (Posix.normStep aar) (JS.toLowerCase <$> res) (JS.toLowerCase <$> segs)
  = JS.toLowerCase <$> foldl (Posix.normStep aar) res segs.
Proof.
  revert res. induction segs as [|seg segs IH]; intros res; [done|].
  rewrite fmap_cons. simpl. by rewrite toLowerCase_normStep, IH.
Qed.

(** Lower-casing commutes with the POSIX normalization. *)
Lemma posix_normalize_toLowerCase (path : string) :
  Posix.normalize (JS.toLowerCase path) = JS.toLowerCase (Posix.normalize path).
Proof.
  unfold Posix.normalize, Posix.normalizeString, Posix.normSegments.
  rewrite toLowerCase_eqb_empty, toLowerCase_startsWith_sep, toLowerCase_endsWith_sep.
  destruct (String.eqb path ""); [done|].
  rewrite toLowerCase_split.
  change (foldl ?f [] (JS.toLowerCase <$> ?l))
    with (foldl f (JS.toLowerCase <$> []) (JS.toLowerCase <$> l)).
  rewrite toLowerCase_foldl_normStep.
  assert (∀ l : list string, rev (JS.toLowerCase <$> l) = JS.toLowerCase <$> rev l) as Hrev.
  { intros l. rewrite !rev_alt. symmetry. apply fmap_reverse. }
  rewrite Hrev, toLowerCase_join, toLowerCase_eqb_empty.
  destruct (String.eqb (JS.join "/" _) "").
  - destruct (JS.startsWith path "/"); [done|]. by destruct (JS.endsWithChar "/" path).
  - destruct (JS.endsWithChar "/" path), (JS.startsWith path "/");
      rewrite ?toLowerCase_app; reflexivity.
Qed.

Lemma posix_nonempty : normalize_nonempty posix.
Proof. intros p. apply posix_normalize_nonempty. Qed.

Lemma posix_projection : normalize_projection posix.
Proof. intros p. apply posix_normalize_idempotent. Qed.

Lemma posix_case_stable : normalize_case_stable posix.
Proof.
  intros p. simpl. by rewrite posix_normalize_toLowerCase, posix_normalize_idempotent.
Qed.



(** * Part III: the claims *)

(** ** Examples: the scenarios of the specification *)

Example splitLines_mixed :
  JS.splitLines ("a" +:+ String JS.CR nl +:+ nl +:+ "b" +:+ nl) = ["a"; "b"; ""].
Proof. reflexivity. Qed.

Example classify_scenario :
  let g := classify posix (Some "/home/u/proj") None "/opt/micromamba"
             (readEnvironments ("/home/u/proj/.conda/envB" +:+ nl +:+ "/opt/micromamba/envs/envA")) in
  envPath <$> workspaceItems g = ["/home/u/proj/.conda/envB"]
  ∧ envPath <$> rootItems g = ["/opt/micromamba/envs/envA"]
  ∧ activeItem g = None.
Proof. vm_compute. done. Qed.

Example defaults_scenario :
  let r := fixMissingVariables posix "/opt/micromamba/envs/envA"
             (parseEnvOutput ("FOO=bar" +:+ nl)) in
  r !! "CONDA_DEFAULT_ENV" = Some "envA"
  ∧ r !! "CONDA_PREFIX" = Some "/opt/micromamba/envs/envA"
  ∧ r !! "FOO" = Some "bar".
Proof. vm_compute. done. Qed.

Example selectEnvironment_scenario :
  (selectEnvironment posix sessionEnv sampleWorld).1
  = SelPicker
      [Separator "Root / Global Environments";
       EnvItem {| label := "$(globe) envA";
                  description := "/opt/micromamba/envs/envA";
                  envPath := "/opt/micromamba/envs/envA" |}]
      None
      {| rootPrefix := "/opt/micromamba"; exe := "/usr/bin/micromamba";
         envTxtPath := "/home/u/.conda/environments.txt" |}.
Proof. vm_compute. reflexivity. Qed.

Example activate_scenario :
  let w := activate posix sessionEnv
             (set_currentMicromambaEnvPath (Some "/opt/micromamba/envs/envA") sampleWorld) in
  envCollection w
  = <["CONDA_DEFAULT_ENV" := "envA"]>
      (<["CONDA_PREFIX" := "/opt/micromamba/envs/envA"]> (<["FOO" := "bar"]> ∅))
  ∧ currentMicromambaEnvPath w = Some "/opt/micromamba/envs/envA"
  ∧ statusBarText w = "$(check) envA"
  ∧ execLog w = ["bash -c " +:+ dq +:+ "micromamba run -p '/opt/micromamba/envs/envA' env" +:+ dq].
Proof. vm_compute. done. Qed.

(** ** C1: activation is all-or-nothing *)

(** C1. When the environment-manager subprocess of [setEnvironment] fails
    (non-zero exit or spawn failure, both reported as an error to the
    callback), the terminal variable collection, the files (so the [.env]
    file) and the persisted last-active path keep their values from before
    the call, for every selected path and executable. *)
Theorem setEnvironment_atomic (P : Platform) (E : Env) (w : World)
    (envPath : string) (manualExe : option string) (message stderr : string) :
  exec E (envDumpCommand P (chooseBinary E w manualExe) envPath) = ExecErr message stderr →
  envCollection (setEnvironment P E w envPath manualExe) = envCollection w
  ∧ files (setEnvironment P E w envPath manualExe) = files w
  ∧ currentMicromambaEnvPath (setEnvironment P E w envPath manualExe)
    = currentMicromambaEnvPath w.
Proof.
  intros Hfail. unfold setEnvironment. rewrite Hfail. done.
Qed.

Lemma setEnvironment_atomic_witness :
  envCollection (setEnvironment posix failingEnv sampleWorld "/opt/micromamba/envs/envA" None)
    = envCollection sampleWorld
  ∧ files (setEnvironment posix failingEnv sampleWorld "/opt/micromamba/envs/envA" None)
    = files sampleWorld
  ∧ currentMicromambaEnvPath
      (setEnvironment posix failingEnv sampleWorld "/opt/micromamba/envs/envA" None)
    = currentMicromambaEnvPath sampleWorld.
Proof.
  apply (setEnvironment_atomic posix failingEnv sampleWorld
           "/opt/micromamba/envs/envA" None "spawn ENOENT" "").
  reflexivity.
Defined.

(** On success the three targets do change: the model is not constant. *)
Example setEnvironment_success :
  let w' := setEnvironment posix workingEnv sampleWorld "/opt/micromamba/envs/envA" None in
  envCollection w' !! "FOO" = Some "bar"
  ∧ envCollection w' !! "CONDA_PREFIX" = Some "/opt/micromamba/envs/envA"
  ∧ is_Some (files w' !! "/home/u/proj/.env")
  ∧ files w' ≠ files sampleWorld
  ∧ currentMicromambaEnvPath w' = Some "/opt/micromamba/envs/envA".
Proof.
  vm_compute. repeat split; try done. by eexists.
Qed.

(** ** C2: the workspace group takes precedence *)

(** C2. An entry whose normalized path starts with the normalized workspace
    root and with the normalized root prefix is placed in the workspace group
    and is absent from the global group; and, whatever the inputs, no item is
    in both groups. *)
Theorem workspace_precedence (P : Platform) (lines : list string)
    (workspaceRoot configRootPrefix : string) (storedPath : option string)
    (line : string) :
  normalize_nonempty P →
  line ∈ lines →
  JS.startsWith (normalize P line) (normalize P workspaceRoot) = true →
  JS.startsWith (normalize P line) (normalize P configRootPrefix) = true →
  (∃ item, item ∈ workspaceItems (classify P (Some workspaceRoot) storedPath configRootPrefix lines)
           ∧ envPath item = normalize P line)
  ∧ (∀ item, item ∈ rootItems (classify P (Some workspaceRoot) storedPath configRootPrefix lines) →
             envPath item ≠ normalize P line)
  ∧ (∀ workspace item,
       item ∈ workspaceItems (classify P workspace storedPath configRootPrefix lines) →
       item ∉ rootItems (classify P workspace storedPath configRootPrefix lines)).
Proof.
  intros HP Hline Hws _.
  assert (∀ workspace item,
    item ∈ rootItems (classify P workspace storedPath configRootPrefix lines) →
    underWorkspace (normalize P <$> workspace) (envPath item) = false) as Hroot.
  { intros workspace item. unfold classify. rewrite classify_rootItems. simpl.
    intros (l & -> & [[Hl _] _]%list_elem_of_filter)%list_elem_of_fmap.
    by rewrite makeItem_envPath. }
  assert (∀ workspace item,
    item ∈ workspaceItems (classify P workspace storedPath configRootPrefix lines) →
    underWorkspace (normalize P <$> workspace) (envPath item) = true) as Hwork.
  { intros workspace item. unfold classify. rewrite classify_workspaceItems. simpl.
    intros (l & -> & [Hl _]%list_elem_of_filter)%list_elem_of_fmap.
    by rewrite makeItem_envPath. }
  assert (underWorkspace (normalize P <$> Some workspaceRoot) (normalize P line) = true)
    as Hunder.
  { simpl. rewrite Hws, andb_true_r. apply truthy_true. by apply normalize_ne_empty. }
  split; [|split].
  - eexists. split; [|apply makeItem_envPath].
    unfold classify. rewrite classify_workspaceItems. simpl.
    apply list_elem_of_fmap. exists line. split; [done|].
    apply list_elem_of_filter. by split.
  - intros item Hitem Heq. apply Hroot in Hitem. rewrite Heq in Hitem. congruence.
  - intros workspace item Hw Hr. apply Hwork in Hw. apply Hroot in Hr. congruence.
Qed.

Lemma workspace_precedence_witness :
  (∃ item, item ∈ workspaceItems
                    (classify posix (Some "/home/u/proj") None "/home/u"
                       ["/home/u/proj/.conda/envB"; "/home/u/micromamba/envs/envA"])
           ∧ envPath item = normalize posix "/home/u/proj/.conda/envB")
  ∧ (∀ item, item ∈ rootItems
                      (classify posix (Some "/home/u/proj") None "/home/u"
                         ["/home/u/proj/.conda/envB"; "/home/u/micromamba/envs/envA"]) →
             envPath item ≠ normalize posix "/home/u/proj/.conda/envB")
  ∧ (∀ workspace item,
       item ∈ workspaceItems
                (classify posix workspace None "/home/u"
                   ["/home/u/proj/.conda/envB"; "/home/u/micromamba/envs/envA"]) →
       item ∉ rootItems
                (classify posix workspace None "/home/u"
                   ["/home/u/proj/.conda/envB"; "/home/u/micromamba/envs/envA"])).
Proof.
  apply (workspace_precedence posix
           ["/home/u/proj/.conda/envB"; "/home/u/micromamba/envs/envA"]
           "/home/u/proj" "/home/u" None "/home/u/proj/.conda/envB").
  - exact posix_nonempty.
  - left.
  - reflexivity.
  - reflexivity.
Defined.

(** ** C3: [parseEnvOutput] keeps the lines with [=] and cuts at the first *)



(** ** C4: the two conventional variables are defaulted *)

(** C4, as the claim states it, fails where a key is present with an empty
    value: with both keys present, [CONDA_DEFAULT_ENV=] on its own line is
    replaced by the basename, so the mapping is not returned unchanged. *)
Lemma fixMissingVariables_empty_value :
  parseEnvOutput ("CONDA_DEFAULT_ENV=" +:+ nl +:+ "CONDA_PREFIX=/opt/x") !! "CONDA_DEFAULT_ENV"
    = Some ""
  ∧ parseEnvOutput ("CONDA_DEFAULT_ENV=" +:+ nl +:+ "CONDA_PREFIX=/opt/x") !! "CONDA_PREFIX"
    = Some "/opt/x"
  ∧ fixMissingVariables posix "/opt/micromamba/envs/envA"
      (parseEnvOutput ("CONDA_DEFAULT_ENV=" +:+ nl +:+ "CONDA_PREFIX=/opt/x"))
      !! "CONDA_DEFAULT_ENV"
    = Some "envA".
Proof. vm_compute. done. Qed.

(** C4, amended. A key that is absent or mapped to the empty string is
    defaulted: [CONDA_DEFAULT_ENV] to the basename of the selected path,
    [CONDA_PREFIX] to the selected path.  When both keys have non-empty
    values the mapping is returned unchanged.  Both keys are present in the
    result, and no other key changes. *)
Theorem fixMissingVariables_defaults (P : Platform) (envPath : string)
    (envVars : gmap string string) :
  (JS.truthyOpt (envVars !! "CONDA_DEFAULT_ENV") = false →
   fixMissingVariables P envPath envVars !! "CONDA_DEFAULT_ENV"
   = Some (path_basename P envPath))
  ∧ (JS.truthyOpt (envVars !! "CONDA_PREFIX") = false →
     fixMissingVariables P envPath envVars !! "CONDA_PREFIX" = Some envPath)
  ∧ (JS.truthyOpt (envVars !! "CONDA_DEFAULT_ENV") = true →
     JS.truthyOpt (envVars !! "CONDA_PREFIX") = true →
     fixMissingVariables P envPath envVars = envVars)
  ∧ is_Some (fixMissingVariables P envPath envVars !! "CONDA_DEFAULT_ENV")
  ∧ is_Some (fixMissingVariables P envPath envVars !! "CONDA_PREFIX")
  ∧ (∀ k, k ≠ "CONDA_DEFAULT_ENV" → k ≠ "CONDA_PREFIX" →
          fixMissingVariables P envPath envVars !! k = envVars !! k).
Proof.
  unfold fixMissingVariables.
  destruct (JS.truthyOpt (envVars !! "CONDA_DEFAULT_ENV")) eqn:Hd; simpl negb; cbv iota.
  - destruct (JS.truthyOpt (envVars !! "CONDA_PREFIX")) eqn:Hp; simpl negb; cbv iota.
    + repeat split; try done.
      * destruct (envVars !! "CONDA_DEFAULT_ENV"); [by eexists|done].
      * destruct (envVars !! "CONDA_PREFIX"); [by eexists|done].
    + repeat split; try done.
      * intros _. apply lookup_insert_eq.
      * rewrite lookup_insert_ne by done.
        destruct (envVars !! "CONDA_DEFAULT_ENV"); [by eexists|done].
      * rewrite lookup_insert_eq. by eexists.
      * intros k _ Hk. by rewrite lookup_insert_ne.
  - rewrite (lookup_insert_ne envVars "CONDA_DEFAULT_ENV" "CONDA_PREFIX") by done.
    destruct (JS.truthyOpt (envVars !! "CONDA_PREFIX")) eqn:Hp; simpl negb; cbv iota.
    + repeat split; try done.
      * intros _. apply lookup_insert_eq.
      * rewrite lookup_insert_eq. by eexists.
      * rewrite lookup_insert_ne by done.
        destruct (envVars !! "CONDA_PREFIX"); [by eexists|done].
      * intros k Hk _. by rewrite lookup_insert_ne.
    + repeat split; try done.
      * intros _. rewrite lookup_insert_ne by done. apply lookup_insert_eq.
      * intros _. apply lookup_insert_eq.
      * rewrite lookup_insert_ne by done. rewrite lookup_insert_eq. by eexists.
      * rewrite lookup_insert_eq. by eexists.
      * intros k Hk1 Hk2. by rewrite !lookup_insert_ne.
Qed.

Lemma fixMissingVariables_defaults_witness :
  fixMissingVariables posix "/opt/micromamba/envs/envA"
    (parseEnvOutput ("CONDA_DEFAULT_ENV=" +:+ nl +:+ "FOO=bar")) !! "CONDA_DEFAULT_ENV"
  = Some (path_basename posix "/opt/micromamba/envs/envA").
Proof.
  apply (proj1 (fixMissingVariables_defaults posix "/opt/micromamba/envs/envA"
                  (parseEnvOutput ("CONDA_DEFAULT_ENV=" +:+ nl +:+ "FOO=bar")))).
  reflexivity.
Defined.

(** ** C5: the catalog listing *)

(** C5. For a registry text made of entries separated by non-empty runs of
    CR and LF in any mixture (with an optional run in front, and a last
    entry that may be empty when the text ends in a run), the listing is the
    entries in file order without the blank ones.  Nothing else is removed:
    duplicates stay, and the file system is not consulted. *)
Theorem readEnvironments_registryText (lead : string) (entries : list (string * string))
    (lastEntry : string) :
  lineBreakRun lead = true →
  Forall (λ e, noLineBreak e.1 = true ∧ lineBreakRun e.2 = true ∧ e.2 ≠ "") entries →
  noLineBreak lastEntry = true →
  readEnvironments (registryText lead entries lastEntry)
  = filter nonBlank (entries.*1 ++ [lastEntry]).
Proof.
  intros Hlead Hentries Hlast. unfold readEnvironments, registryText.
  change (filter (λ line, JS.trim line ≠ "") ?l) with (filter nonBlank l).
  rewrite (filter_splitLines_run _ _ Hlead).
  by apply filter_splitLines_registry.
Qed.

Lemma readEnvironments_registryText_witness :
  readEnvironments
    (registryText nl
       [("/opt/mm/envs/a", crlf); ("/no/such/dir", nl +:+ crlf);
        ("   ", String JS.CR ""); ("/opt/mm/envs/a", nl)]
       "")
  = filter nonBlank ["/opt/mm/envs/a"; "/no/such/dir"; "   "; "/opt/mm/envs/a"; ""].
Proof.
  apply (readEnvironments_registryText nl
           [("/opt/mm/envs/a", crlf); ("/no/such/dir", nl +:+ crlf);
            ("   ", String JS.CR ""); ("/opt/mm/envs/a", nl)] "").
  - reflexivity.
  - repeat constructor; done.
  - reflexivity.
Defined.

Example readEnvironments_duplicates :
  readEnvironments ("/opt/mm/envs/a" +:+ crlf +:+ "/no/such/dir" +:+ nl +:+ crlf
                    +:+ "   " +:+ String JS.CR "/opt/mm/envs/a" +:+ nl)
  = ["/opt/mm/envs/a"; "/no/such/dir"; "/opt/mm/envs/a"].
Proof. vm_compute. reflexivity. Qed.

(** ** C6: the active entry *)

(** C6, as the claim states it, fails on a registry that lists a path twice:
    both entries are marked active in the picker. *)
Lemma two_entries_marked_active :
  pickerActiveCount
    (pickerItems
       (classify posix None (Some "/opt/micromamba/envs/envA") "/opt/micromamba"
          (readEnvironments
             ("/opt/micromamba/envs/envA" +:+ nl +:+ "/opt/micromamba/envs/envA"))))
  = 2%nat.
Proof. vm_compute. reflexivity. Qed.

(** C6, amended. With a stored active path, an entry of either group is
    marked active exactly when its normalized path equals the normalized
    stored path; with none stored (or an empty one), no entry is marked.  At most one entry of
    the picker is marked when no two registry lines have the same normalized
    path, and the picker highlights at most one item, a marked one. *)
Theorem active_marking (P : Platform) (lines : list string)
    (workspace : option string) (configRootPrefix : string) :
  normalize_nonempty P →
  (∀ stored item,
     stored ≠ "" →
     item ∈ workspaceItems (classify P workspace (Some stored) configRootPrefix lines)
            ++ rootItems (classify P workspace (Some stored) configRootPrefix lines) →
     (markedActive item = true ↔ envPath item = normalize P stored))
  ∧ (∀ storedPath item,
       JS.truthyOpt storedPath = false →
       item ∈ workspaceItems (classify P workspace storedPath configRootPrefix lines)
              ++ rootItems (classify P workspace storedPath configRootPrefix lines) →
       markedActive item = false)
  ∧ (∀ storedPath,
       NoDup (normalize P <$> lines) →
       (pickerActiveCount
          (pickerItems (classify P workspace storedPath configRootPrefix lines)) ≤ 1)%nat)
  ∧ (∀ storedPath item,
       activeItem (classify P workspace storedPath configRootPrefix lines) = Some item →
       markedActive item = true).
Proof.
  intros HP.
  assert (∀ storedPath item,
    item ∈ workspaceItems (classify P workspace storedPath configRootPrefix lines)
           ++ rootItems (classify P workspace storedPath configRootPrefix lines) →
    ∃ l, item = makeItem P (normalize P <$> workspace)
                  (if JS.truthyOpt storedPath
                   then normalize P (default "" storedPath) else "") l) as Hitems.
  { intros storedPath item. unfold classify.
    rewrite classify_workspaceItems, classify_rootItems. simpl.
    intros [(l & -> & _)%list_elem_of_fmap|(l & -> & _)%list_elem_of_fmap]%elem_of_app;
      by exists l. }
  split; [|split; [|split]].
  - intros stored item Hne Hitem. apply Hitems in Hitem as [l ->].
    assert (JS.truthyOpt (Some stored) = true) as -> by by apply truthy_true.
    rewrite makeItem_marked, makeItem_envPath. simpl. split; done.
  - intros storedPath item Hnone Hitem. apply Hitems in Hitem as [l ->].
    rewrite Hnone. apply not_true_is_false. rewrite makeItem_marked.
    intros Heq. by apply (normalize_ne_empty P l HP).
  - intros storedPath Hnodup. rewrite pickerActiveCount_pickerItems.
    unfold classify. rewrite classify_workspaceItems, classify_rootItems. simpl.
    etrans; [apply activeCount_groups|]. by apply filter_eq_NoDup.
  - intros storedPath item. unfold classify. rewrite classify_activeItem. simpl.
    destruct (last (filter _ lines)) as [l|] eqn:Hlast; [|done].
    intros [= <-]. apply makeItem_marked.
    apply last_Some_elem_of in Hlast.
    by apply list_elem_of_filter in Hlast as [Hl _].
Qed.

Lemma active_marking_witness :
  (pickerActiveCount
     (pickerItems
        (classify posix (Some "/home/u/proj") (Some "/opt/micromamba/envs/envA/../envA")
           "/opt/micromamba"
           ["/home/u/proj/.conda/envB"; "/opt/micromamba/envs/envA"])) ≤ 1)%nat.
Proof.
  apply (proj1 (proj2 (proj2
           (active_marking posix ["/home/u/proj/.conda/envB"; "/opt/micromamba/envs/envA"]
              (Some "/home/u/proj") "/opt/micromamba" posix_nonempty)))
           (Some "/opt/micromamba/envs/envA/../envA")).
  apply (bool_decide_unpack _). vm_compute. exact I.
Defined.

Example active_marking_scenario :
  pickerItems
    (classify posix (Some "/home/u/proj") (Some "/opt/micromamba/envs/envA/../envA")
       "/opt/micromamba"
       ["/home/u/proj/.conda/envB"; "/opt/micromamba/envs//envA"])
  = [Separator "Workspace Environments";
     EnvItem {| label := "$(project) envB";
                description := "/home/u/proj/.conda/envB";
                envPath := "/home/u/proj/.conda/envB" |};
     Separator "Root / Global Environments";
     EnvItem {| label := "$(check) $(globe) envA";
                description := "(Active) /opt/micromamba/envs/envA";
                envPath := "/opt/micromamba/envs/envA" |}].
Proof. vm_compute. reflexivity. Qed.

(** ** C7: the [.env] text read back *)




Example envFile_text :
  envFileContent (parseEnvOutput ("GREETING=say " +:+ dq +:+ "hi" +:+ dq))
  = "GREETING=" +:+ dq +:+ "say \" +:+ dq +:+ "hi\" +:+ dq +:+ dq +:+ nl.
Proof. vm_compute. reflexivity. Qed.

(** After a successful write the file holds exactly that text: nothing of
    the previous content is kept. *)
Lemma writeEnvFile_overwrites (E : Env) (filepath : string)
    (envs : gmap string string) (w : World) :
  writable E filepath = true →
  files (writeEnvFile E filepath envs w) !! filepath = Some (envFileContent envs).
Proof. intros Hw. unfold writeEnvFile. rewrite Hw. apply lookup_insert_eq. Qed.

(** ** C8: the configuration is resolved once *)



Example getMambaConfig_first_call :
  getMambaConfig posix failingEnv sampleWorld
  = ({| rootPrefix := ""; exe := "micromamba";
        envTxtPath := "/home/u/.conda/environments.txt" |},
     console "Failed to fetch mamba vars from shell: spawn ENOENT"
       (set_cachedMambaConfig
          (Some {| rootPrefix := ""; exe := "micromamba";
                   envTxtPath := "/home/u/.conda/environments.txt" |})
          (log_exec (shellVarsCommand posix) sampleWorld))).
Proof. vm_compute. reflexivity. Qed.

Example getMambaConfig_from_shell :
  (getMambaConfig posix laterEnv
     (set_cachedMambaConfig None sampleWorld)).1
  = {| rootPrefix := "/somewhere/else"; exe := "/usr/bin/mamba";
       envTxtPath := "/tmp/envs.txt" |}
  ∧ (getMambaConfig posix
       {| settings := noSettings; workspaceFolder := None;
          exec := exec laterEnv; writable := writable laterEnv |}
       sampleWorld).1
    = {| rootPrefix := "/opt/other"; exe := "/opt/other/bin/micromamba";
         envTxtPath := "/home/u/.conda/environments.txt" |}.
Proof. vm_compute. done. Qed.

(** ** C9: [normalize] is idempotent *)



Example normalize_folds_case :
  normalize foldingPosix "/opt//Micromamba/./envs/../envs/envA/" = "/opt/micromamba/envs/enva/"
  ∧ normalize foldingPosix (normalize foldingPosix "/opt//Micromamba/./envs/../envs/envA/")
    = "/opt/micromamba/envs/enva/".
Proof. vm_compute. done. Qed.

(** ** C10: trimming, and the last occurrence wins *)




(** * Part IV: further properties of the code *)

(** ** What a successful activation writes *)

Lemma writeEnvFile_frame (E : Env) (filepath : string) (envs : gmap string string)
    (w : World) :
  envCollection (writeEnvFile E filepath envs w) = envCollection w
  ∧ currentMicromambaEnvPath (writeEnvFile E filepath envs w) = currentMicromambaEnvPath w
  ∧ defaultInterpreterPath (writeEnvFile E filepath envs w) = defaultInterpreterPath w
  ∧ ranCommands (writeEnvFile E filepath envs w) = ranCommands w
  ∧ execLog (writeEnvFile E filepath envs w) = execLog w
  ∧ cachedMambaConfig (writeEnvFile E filepath envs w) = cachedMambaConfig w.
Proof. unfold writeEnvFile. by destruct (writable E filepath). Qed.

Lemma configurePython_frame (P : Platform) (E : Env) (envPath : string)
    (envVars : gmap string string) (w : World) :
  envCollection (configurePython P E envPath envVars w) = envCollection w
  ∧ currentMicromambaEnvPath (configurePython P E envPath envVars w)
    = currentMicromambaEnvPath w
  ∧ execLog (configurePython P E envPath envVars w) = execLog w
  ∧ cachedMambaConfig (configurePython P E envPath envVars w) = cachedMambaConfig w.
Proof.
  unfold configurePython. destruct (workspaceFolder E) as [rootPath|]; [|done].
  destruct (writeEnvFile_frame E (path_join P [rootPath; ".env"]) envVars w)
    as (H1 & H2 & _ & _ & H3 & H4).
  by destruct (files _ !! _).
Qed.






(** X3. Without an open workspace folder an activation, successful or not,
    writes no file, leaves the Python setting alone and runs no editor
    command. *)
Theorem setEnvironment_no_workspace (P : Platform) (E : Env) (w : World)
    (envPath : string) (manualExe : option string) :
  workspaceFolder E = None →
  files (setEnvironment P E w envPath manualExe) = files w
  ∧ defaultInterpreterPath (setEnvironment P E w envPath manualExe)
    = defaultInterpreterPath w
  ∧ ranCommands (setEnvironment P E w envPath manualExe) = ranCommands w.
Proof.
  intros Hnone. unfold setEnvironment, configurePython. rewrite Hnone.
  by destruct (exec E _).
Qed.

Lemma setEnvironment_no_workspace_witness :
  files (setEnvironment posix laterEnv sampleWorld "/opt/micromamba/envs/envA" None)
    = files sampleWorld
  ∧ defaultInterpreterPath
      (setEnvironment posix laterEnv sampleWorld "/opt/micromamba/envs/envA" None)
    = defaultInterpreterPath sampleWorld
  ∧ ranCommands (setEnvironment posix laterEnv sampleWorld "/opt/micromamba/envs/envA" None)
    = ranCommands sampleWorld.
Proof.
  apply (setEnvironment_no_workspace posix laterEnv sampleWorld
           "/opt/micromamba/envs/envA" None).
  reflexivity.
Defined.


(** ** The interpreter setting *)





Lemma join_cons_char (sep : string) (a : ascii) (piece : string) (rest : list string) :
  JS.join sep (String a piece :: rest) = String a (JS.join sep (piece :: rest)).
Proof. by destruct rest. Qed.

Lemma join_split (c : ascii) (s : string) : JS.join (String c "") (JS.split c s) = s.
Proof.
  induction s as [|a s IH]; [done|]. simpl.
  destruct (Ascii.eqb_spec a c) as [->|Hne].
  - pose proof (split_nonempty c s) as Hs.
    destruct (JS.split c s) as [|piece rest] eqn:Hsplit; [done|].
    change (JS.join (String c "") ("" :: piece :: rest))
      with (String c (JS.join (String c "") (piece :: rest))).
    by rewrite IH.
  - pose proof (split_nonempty c s) as Hs.
    destruct (JS.split c s) as [|piece rest] eqn:Hsplit; [done|].
    by rewrite join_cons_char, IH.
Qed.

Lemma join_split_replaces (c d : ascii) (s : string) :
  c ≠ d → JS.includes c (JS.join (String d "") (JS.split c s)) = false.
Proof.
  intros Hcd. induction s as [|a s IH]; [done|]. simpl JS.split.
  pose proof (split_nonempty c s) as Hs.
  destruct (JS.split c s) as [|piece rest]; [done|].
  destruct (Ascii.eqb_spec a c) as [->|Hne].
  - change (JS.join (String d "") ("" :: piece :: rest))
      with (String d (JS.join (String d "") (piece :: rest))).
    cbn [JS.includes]. rewrite IH. by destruct (Ascii.eqb_spec d c) as [->|].
  - rewrite join_cons_char. cbn [JS.includes]. rewrite IH.
    by destruct (Ascii.eqb_spec a c).
Qed.

Lemma join_split_length (c d : ascii) (s : string) :
  String.length (JS.join (String d "") (JS.split c s)) = String.length s.
Proof.
  induction s as [|a s IH]; [done|]. simpl JS.split.
  pose proof (split_nonempty c s) as Hs.
  destruct (JS.split c s) as [|piece rest]; [done|].
  destruct (Ascii.eqb a c).
  - change (JS.join (String d "") ("" :: piece :: rest))
      with (String d (JS.join (String d "") (piece :: rest))).
    cbn [String.length]. by rewrite IH.
  - rewrite join_cons_char. cbn [String.length]. by rewrite IH.
Qed.

(** X5. The interpreter path that is written: the absolute path when the
    interpreter is not under the workspace folder; otherwise the
    [${workspaceFolder}/] template followed by the relative path, of the
    same length, in which every platform separator has become a forward
    slash (so it is the relative path itself where the separator is the
    forward slash, and holds no separator where it is another character). *)
Theorem interpreterPath_template (P : Platform) (rootPath pythonPath : string) :
  (JS.startsWith (normalize P pythonPath) (normalize P rootPath) = false →
   interpreterPath P rootPath pythonPath = pythonPath)
  ∧ (JS.startsWith (normalize P pythonPath) (normalize P rootPath) = true →
     ∃ rel,
       interpreterPath P rootPath pythonPath = "${workspaceFolder}/" +:+ rel
       ∧ String.length rel = String.length (path_relative P rootPath pythonPath)
       ∧ (path_sep P = "/"%char → rel = path_relative P rootPath pythonPath)
       ∧ (path_sep P ≠ "/"%char → JS.includes (path_sep P) rel = false)).
Proof.
  unfold interpreterPath. split; intros ->; [done|].
  eexists. split; [done|]. split; [apply join_split_length|]. split.
  - intros ->. apply (join_split "/").
  - intros Hsep. by apply (join_split_replaces (path_sep P) "/").
Qed.

Lemma interpreterPath_template_witness :
  ∃ rel,
    interpreterPath posix "/home/u/proj" "/home/u/proj/.venv/bin/python"
    = "${workspaceFolder}/" +:+ rel
    ∧ String.length rel
      = String.length (path_relative posix "/home/u/proj" "/home/u/proj/.venv/bin/python")
    ∧ (path_sep posix = "/"%char →
       rel = path_relative posix "/home/u/proj" "/home/u/proj/.venv/bin/python")
    ∧ (path_sep posix ≠ "/"%char → JS.includes (path_sep posix) rel = false).
Proof.
  apply (proj2 (interpreterPath_template posix "/home/u/proj"
                  "/home/u/proj/.venv/bin/python")).
  reflexivity.
Defined.

Example interpreterPath_scenario :
  interpreterPath posix "/home/u/proj" "/home/u/proj/.venv/bin/python"
    = "${workspaceFolder}/.venv/bin/python"
  ∧ interpreterPath posix "/home/u/proj" "/opt/micromamba/envs/envA/bin/python"
    = "/opt/micromamba/envs/envA/bin/python"
  ∧ JS.join "/" (JS.split "\" "env\Scripts\python.exe") = "env/Scripts/python.exe".
Proof. vm_compute. done. Qed.


(** ** Resolving the configuration *)

Lemma orDefault_truthy (o : option string) (b : string) :
  JS.truthyOpt o = true → Some (JS.orDefault o b) = o.
Proof. destruct o as [s|]; simpl; [|done]. by intros ->. Qed.

Lemma orDefault_falsy (o : option string) (b : string) :
  JS.truthyOpt o = false → JS.orDefault o b = b.
Proof. destruct o as [s|]; simpl; [|done]. by intros ->. Qed.

(** X6. On an empty cache, a non-empty setting always wins over the shell: the
    root prefix, the executable and the registry path are the settings when
    these are set.  The shell is run exactly when the root prefix or the
    executable setting is missing, and then exactly once; a missing registry
    path setting never runs it and becomes [~/.conda/environments.txt]. *)
Theorem getMambaConfig_settings_first (P : Platform) (E : Env) (w : World) :
  cachedMambaConfig w = None →
  (JS.truthyOpt (cfg_rootPrefix (settings E)) = true →
   Some (rootPrefix (getMambaConfig P E w).1) = cfg_rootPrefix (settings E))
  ∧ (JS.truthyOpt (cfg_micromambaBinary (settings E)) = true →
     Some (exe (getMambaConfig P E w).1) = cfg_micromambaBinary (settings E))
  ∧ (JS.truthyOpt (cfg_environmentsTxtPath (settings E)) = true →
     Some (envTxtPath (getMambaConfig P E w).1) = cfg_environmentsTxtPath (settings E))
  ∧ (JS.truthyOpt (cfg_environmentsTxtPath (settings E)) = false →
     envTxtPath (getMambaConfig P E w).1
     = path_join P [os_homedir P; ".conda"; "environments.txt"])
  ∧ execLog (getMambaConfig P E w).2
    = (if JS.truthyOpt (cfg_rootPrefix (settings E))
          && JS.truthyOpt (cfg_micromambaBinary (settings E))
       then execLog w else execLog w ++ [shellVarsCommand P]).
Proof.
  intros Hc. unfold getMambaConfig. rewrite Hc.
  set (root0 := JS.orDefault (cfg_rootPrefix (settings E)) "").
  set (exe0 := JS.orDefault (cfg_micromambaBinary (settings E)) "").
  set (txt0 := JS.orDefault (cfg_environmentsTxtPath (settings E)) "").
  assert (JS.truthy root0 = JS.truthyOpt (cfg_rootPrefix (settings E))) as Hroot.
  { unfold root0. destruct (cfg_rootPrefix (settings E)) as [s|]; [|done].
    simpl. by destruct (JS.truthy s) eqn:Hs. }
  assert (JS.truthy exe0 = JS.truthyOpt (cfg_micromambaBinary (settings E))) as Hexe.
  { unfold exe0. destruct (cfg_micromambaBinary (settings E)) as [s|]; [|done].
    simpl. by destruct (JS.truthy s) eqn:Hs. }
  assert (JS.truthy txt0 = JS.truthyOpt (cfg_environmentsTxtPath (settings E))) as Htxt.
  { unfold txt0. destruct (cfg_environmentsTxtPath (settings E)) as [s|]; [|done].
    simpl. by destruct (JS.truthy s) eqn:Hs. }
  rewrite Hroot, Hexe, Htxt.
  destruct (JS.truthyOpt (cfg_rootPrefix (settings E))) eqn:Hr;
    destruct (JS.truthyOpt (cfg_micromambaBinary (settings E))) eqn:He;
    destruct (JS.truthyOpt (cfg_environmentsTxtPath (settings E))) eqn:Ht;
    simpl negb; simpl orb; simpl andb; cbv iota;
    try (destruct (fetchMambaVarsFromShell P (exec E)) as [[shellRoot shellExe]|err]);
    simpl; rewrite ?Hexe;
    repeat split; try done;
    intros _; unfold root0, exe0, txt0; by apply orDefault_truthy.
Qed.

Lemma getMambaConfig_settings_first_witness :
  (JS.truthyOpt (cfg_rootPrefix (settings laterEnv)) = true →
   Some (rootPrefix (getMambaConfig posix laterEnv sampleWorld).1)
   = cfg_rootPrefix (settings laterEnv))
  ∧ (JS.truthyOpt (cfg_micromambaBinary (settings laterEnv)) = true →
     Some (exe (getMambaConfig posix laterEnv sampleWorld).1)
     = cfg_micromambaBinary (settings laterEnv))
  ∧ (JS.truthyOpt (cfg_environmentsTxtPath (settings laterEnv)) = true →
     Some (envTxtPath (getMambaConfig posix laterEnv sampleWorld).1)
     = cfg_environmentsTxtPath (settings laterEnv))
  ∧ (JS.truthyOpt (cfg_environmentsTxtPath (settings laterEnv)) = false →
     envTxtPath (getMambaConfig posix laterEnv sampleWorld).1
     = path_join posix [os_homedir posix; ".conda"; "environments.txt"])
  ∧ execLog (getMambaConfig posix laterEnv sampleWorld).2
    = (if JS.truthyOpt (cfg_rootPrefix (settings laterEnv))
          && JS.truthyOpt (cfg_micromambaBinary (settings laterEnv))
       then execLog sampleWorld else execLog sampleWorld ++ [shellVarsCommand posix]).
Proof.
  apply (getMambaConfig_settings_first posix laterEnv sampleWorld).
  reflexivity.
Defined.


(** ** Reading the two values that the shell echoes *)

Lemma trimStart_id (s : string) : startsWithSpace s = false → JS.trimStart s = s.
Proof. destruct s as [|c s]; simpl; [done|]. by intros ->. Qed.

Lemma trimEnd_id (s : string) : endsWithSpace s = false → JS.trimEnd s = s.
Proof.
  induction s as [|c s IH]; [done|]. simpl.
  destruct s as [|c' s'].
  - by intros ->.
  - intros Hs. by rewrite (IH Hs).
Qed.

Lemma trim_id (s : string) : trimmed s → JS.trim s = s.
Proof.
  intros [Hs He]. unfold JS.trim. rewrite (trimStart_id _ Hs). by apply trimEnd_id.
Qed.

Lemma trimEnd_app_break (s : string) : JS.trimEnd (s +:+ nl) = JS.trimEnd s.
Proof.
  induction s as [|c s IH]; [done|]. rewrite app_cons. simpl. by rewrite IH.
Qed.

Lemma endsWithSpace_app (s t : string) :
  t ≠ "" → endsWithSpace (s +:+ t) = endsWithSpace t.
Proof.
  intros Ht. induction s as [|c s IH]; [done|]. rewrite app_cons. simpl. rewrite IH.
  destruct (s +:+ t) eqn:Hst; [|done]. destruct s; [|done]. by destruct t.
Qed.

Lemma startsWithSpace_app (s t : string) :
  s ≠ "" → startsWithSpace (s +:+ t) = startsWithSpace s.
Proof. by destruct s. Qed.

Lemma shellValue_first_char (s : string) :
  shellValue s → ∃ c s', s = String c s' ∧ JS.isLineBreak c = false.
Proof.
  intros (Hne & Hnl & _). destruct s as [|c s']; [done|]. exists c, s'. split; [done|].
  simpl in Hnl. apply andb_true_iff in Hnl as [Hc _]. by apply negb_true_iff.
Qed.

Lemma splitLines_two (a b : string) :
  shellValue a → shellValue b → JS.splitLines (a +:+ nl +:+ b) = [a; b].
Proof.
  intros (Ha & Hal & _) Hb.
  destruct (shellValue_first_char b Hb) as (c & b' & -> & Hc).
  destruct Hb as (_ & Hbl & _).
  rewrite (splitLines_app _ _ Hal).
  change (nl +:+ String c b') with (String JS.LF (String c b')).
  rewrite (splitLines_break JS.LF (String c b') eq_refl), Hc.
  rewrite (splitLines_noLineBreak _ Hbl). simpl. by rewrite app_empty_r.
Qed.

Lemma trim_line (s : string) : shellValue s → JS.trim (s +:+ nl) = s.
Proof.
  intros (Hs0 & _ & Hst). unfold JS.trim.
  rewrite trimStart_id by (rewrite startsWithSpace_app by done; apply Hst).
  rewrite trimEnd_app_break. apply trimEnd_id, Hst.
Qed.

Lemma shellValue_truthy (s : string) : shellValue s → JS.truthy s = true.
Proof. intros (Hs0 & _). by apply truthy_true. Qed.

Lemma fetch_two_values (P : Platform) (run : Exec) (root exePath : string) :
  shellValue root → shellValue exePath →
  run (shellVarsCommand P) = ExecOk (root +:+ nl +:+ exePath +:+ nl) →
  fetchMambaVarsFromShell P run = inl (root, exePath).
Proof.
  intros Hroot Hexe Hrun.
  pose proof Hroot as (Hr0 & Hrl & Hrt). pose proof Hexe as (He0 & Hel & Het).
  unfold fetchMambaVarsFromShell. rewrite Hrun.
  assert (JS.trim (root +:+ nl +:+ exePath +:+ nl) = root +:+ nl +:+ exePath) as ->.
  { unfold JS.trim.
    rewrite trimStart_id by (rewrite startsWithSpace_app by done; apply Hrt).
    replace (root +:+ nl +:+ exePath +:+ nl) with ((root +:+ nl +:+ exePath) +:+ nl)
      by (by rewrite !app_assoc').
    rewrite trimEnd_app_break. apply trimEnd_id.
    rewrite endsWithSpace_app by (by apply app_nonempty_r).
    rewrite endsWithSpace_app by done. apply Het. }
  rewrite (splitLines_two _ _ Hroot Hexe). simpl.
  by rewrite (shellValue_truthy _ Hroot), (shellValue_truthy _ Hexe),
    (trim_id _ Hrt), (trim_id _ Het).
Qed.

Lemma fetch_root_only (P : Platform) (run : Exec) (root : string) :
  shellValue root →
  run (shellVarsCommand P) = ExecOk (root +:+ nl +:+ nl) →
  fetchMambaVarsFromShell P run = inl (root, "").
Proof.
  intros Hroot Hrun. pose proof Hroot as (Hr0 & Hrl & Hrt).
  unfold fetchMambaVarsFromShell. rewrite Hrun.
  assert (JS.trim (root +:+ nl +:+ nl) = root) as ->.
  { replace (root +:+ nl +:+ nl) with ((root +:+ nl) +:+ nl) by (by rewrite !app_assoc').
    unfold JS.trim.
    rewrite trimStart_id
      by (rewrite !startsWithSpace_app by (try done; by apply app_nonempty_l); apply Hrt).
    rewrite !trimEnd_app_break. apply trimEnd_id, Hrt. }
  rewrite (splitLines_noLineBreak _ Hrl). simpl.
  by rewrite (shellValue_truthy _ Hroot), (trim_id _ Hrt).
Qed.

Lemma fetch_exe_only (P : Platform) (run : Exec) (exePath : string) :
  shellValue exePath →
  run (shellVarsCommand P) = ExecOk (nl +:+ exePath +:+ nl) →
  fetchMambaVarsFromShell P run = inl (exePath, "").
Proof.
  intros Hexe Hrun. pose proof Hexe as (He0 & Hel & Het).
  unfold fetchMambaVarsFromShell. rewrite Hrun.
  assert (JS.trim (nl +:+ exePath +:+ nl) = exePath) as ->.
  { change (nl +:+ exePath +:+ nl) with (String JS.LF (exePath +:+ nl)).
    unfold JS.trim. simpl JS.trimStart. apply (trim_line _ Hexe). }
  rewrite (splitLines_noLineBreak _ Hel). simpl.
  by rewrite (shellValue_truthy _ Hexe), (trim_id _ Het).
Qed.

(** X7. What [fetchMambaVarsFromShell] makes of the output of the login shell.
    Two values on two lines are the root prefix and the executable.  When
    the root prefix variable is unset the first line is empty, the leading
    line break is trimmed away, and the executable is returned as the root
    prefix, with no executable.  When both are unset, both results are
    empty.  A failing shell rejects with its message. *)
Theorem fetchMambaVarsFromShell_lines (P : Platform) (run : Exec) (root exePath : string) :
  shellValue root → shellValue exePath →
  (run (shellVarsCommand P) = ExecOk (root +:+ nl +:+ exePath +:+ nl) →
   fetchMambaVarsFromShell P run = inl (root, exePath))
  ∧ (run (shellVarsCommand P) = ExecOk (root +:+ nl +:+ nl) →
     fetchMambaVarsFromShell P run = inl (root, ""))
  ∧ (run (shellVarsCommand P) = ExecOk (nl +:+ exePath +:+ nl) →
     fetchMambaVarsFromShell P run = inl (exePath, ""))
  ∧ (run (shellVarsCommand P) = ExecOk (nl +:+ nl) →
     fetchMambaVarsFromShell P run = inl ("", ""))
  ∧ (∀ message stderr,
       run (shellVarsCommand P) = ExecErr message stderr →
       fetchMambaVarsFromShell P run = inr message).
Proof.
  intros Hroot Hexe. repeat split.
  - by apply fetch_two_values.
  - by apply fetch_root_only.
  - by apply fetch_exe_only.
  - unfold fetchMambaVarsFromShell. by intros ->.
  - unfold fetchMambaVarsFromShell. by intros message stderr ->.
Qed.

Lemma fetchMambaVarsFromShell_lines_witness :
  fetchMambaVarsFromShell posix
    (λ _, ExecOk ("/opt/micromamba" +:+ nl +:+ "/usr/bin/micromamba" +:+ nl))
  = inl ("/opt/micromamba", "/usr/bin/micromamba").
Proof.
  refine (proj1 (fetchMambaVarsFromShell_lines posix
                   (λ _, ExecOk ("/opt/micromamba" +:+ nl +:+ "/usr/bin/micromamba" +:+ nl))
                   "/opt/micromamba" "/usr/bin/micromamba" _ _) _).
  - split; [discriminate|]. split; [reflexivity|]. split; reflexivity.
  - split; [discriminate|]. split; [reflexivity|]. split; reflexivity.
  - reflexivity.
Defined.

(** X8. With no root prefix and no executable in the settings, the configuration
    takes both from the shell when it echoes both.  When the shell knows
    only the executable, the executable path becomes the root prefix and the
    executable is the literal default. *)
Theorem getMambaConfig_shell_values (P : Platform) (E : Env) (w : World)
    (root exePath : string) :
  cachedMambaConfig w = None →
  JS.truthyOpt (cfg_rootPrefix (settings E)) = false →
  JS.truthyOpt (cfg_micromambaBinary (settings E)) = false →
  shellValue root → shellValue exePath →
  (exec E (shellVarsCommand P) = ExecOk (root +:+ nl +:+ exePath +:+ nl) →
   rootPrefix (getMambaConfig P E w).1 = root ∧ exe (getMambaConfig P E w).1 = exePath)
  ∧ (exec E (shellVarsCommand P) = ExecOk (nl +:+ exePath +:+ nl) →
     rootPrefix (getMambaConfig P E w).1 = exePath
     ∧ exe (getMambaConfig P E w).1 = "micromamba").
Proof.
  intros Hc Hr He Hroot Hexe. unfold getMambaConfig. rewrite Hc.
  rewrite (orDefault_falsy _ _ Hr), (orDefault_falsy _ _ He). simpl negb. simpl orb.
  cbv iota. split; intros Hrun.
  - rewrite (fetch_two_values P (exec E) root exePath Hroot Hexe Hrun). simpl.
    rewrite (shellValue_truthy _ Hroot), !(shellValue_truthy _ Hexe). simpl.
    by rewrite ?(shellValue_truthy _ Hexe).
  - rewrite (fetch_exe_only P (exec E) exePath Hexe Hrun). simpl.
    rewrite !(shellValue_truthy _ Hexe). simpl. by rewrite ?(shellValue_truthy _ Hexe).
Qed.

Lemma getMambaConfig_shell_values_witness :
  rootPrefix (getMambaConfig posix sessionEnv sampleWorld).1 = "/opt/micromamba"
  ∧ exe (getMambaConfig posix sessionEnv sampleWorld).1 = "/usr/bin/micromamba".
Proof.
  refine (proj1 (getMambaConfig_shell_values posix sessionEnv sampleWorld
                   "/opt/micromamba" "/usr/bin/micromamba" _ _ _ _ _) _).
  - reflexivity.
  - reflexivity.
  - reflexivity.
  - split; [discriminate|]. split; [reflexivity|]. split; reflexivity.
  - split; [discriminate|]. split; [reflexivity|]. split; reflexivity.
  - reflexivity.
Defined.


(** ** Listing the environments *)

Lemma getMambaConfig_frame (P : Platform) (E : Env) (w : World) :
  envCollection (getMambaConfig P E w).2 = envCollection w
  ∧ files (getMambaConfig P E w).2 = files w
  ∧ currentMicromambaEnvPath (getMambaConfig P E w).2 = currentMicromambaEnvPath w
  ∧ defaultInterpreterPath (getMambaConfig P E w).2 = defaultInterpreterPath w
  ∧ shownMessages (getMambaConfig P E w).2 = shownMessages w
  ∧ (execLog (getMambaConfig P E w).2 = execLog w
     ∨ execLog (getMambaConfig P E w).2 = execLog w ++ [shellVarsCommand P]).
Proof.
  unfold getMambaConfig. destruct (cachedMambaConfig w); [by repeat split; try left|].
  destruct (negb _ || negb _).
  - destruct (fetchMambaVarsFromShell P (exec E)) as [[shellRoot shellExe]|err];
      repeat split; by right.
  - repeat split; by left.
Qed.

(** X9. Listing the environments writes nothing: the terminal variables, the
    files, the persisted path and the Python setting are as before, and the
    only subprocess it may run is the shell that reports the configuration.
    When the registry file does not exist the outcome is the error notice
    that names it. *)
Theorem selectEnvironment_reads_only (P : Platform) (E : Env) (w : World) :
  envCollection (selectEnvironment P E w).2 = envCollection w
  ∧ files (selectEnvironment P E w).2 = files w
  ∧ currentMicromambaEnvPath (selectEnvironment P E w).2 = currentMicromambaEnvPath w
  ∧ defaultInterpreterPath (selectEnvironment P E w).2 = defaultInterpreterPath w
  ∧ (execLog (selectEnvironment P E w).2 = execLog w
     ∨ execLog (selectEnvironment P E w).2 = execLog w ++ [shellVarsCommand P])
  ∧ (files w !! envTxtPath (getMambaConfig P E w).1 = None →
     (selectEnvironment P E w).1
     = SelError ("File not found: " +:+ envTxtPath (getMambaConfig P E w).1)
     ∧ shownMessages (selectEnvironment P E w).2
       = shownMessages w ++ ["File not found: " +:+ envTxtPath (getMambaConfig P E w).1]).
Proof.
  destruct (getMambaConfig_frame P E w) as (H1 & H2 & H3 & H4 & H5 & H6).
  unfold selectEnvironment.
  destruct (getMambaConfig P E w) as [config w1] eqn:Hcfg. simpl in *.
  rewrite H2.
  destruct (files w !! envTxtPath config) as [content|] eqn:Hfile.
  - destruct (length _ =? 0)%nat; simpl; by rewrite ?H1, ?H2, ?H3, ?H4.
  - simpl. rewrite H1, H2, H3, H4, H5. done.
Qed.

Lemma filter_none {A} (Q : A → Prop) `{∀ x, Decision (Q x)} (l : list A) :
  (∀ x, x ∈ l → ¬ Q x) → filter Q l = [].
Proof.
  induction l as [|x l IH]; intros Hnone; [done|].
  rewrite filter_cons_False by (apply Hnone; left).
  apply IH. intros y Hy. apply Hnone. by right.
Qed.

Section picker.

Variable P : Platform.
Variable workspace storedPath : option string.
Variable configRootPrefix : string.

Let currentWorkspacePath := normalize P <$> workspace.
Let normalizedRootPrefix :=
  if JS.truthy configRootPrefix then normalize P configRootPrefix else "".
Let inWorkspace (line : string) : Prop :=
  underWorkspace currentWorkspacePath (normalize P line) = true.
Let inRoot (line : string) : Prop :=
  underWorkspace currentWorkspacePath (normalize P line) = false
  ∧ JS.truthy normalizedRootPrefix
    && JS.startsWith (normalize P line) normalizedRootPrefix = true.

Lemma pickerEnvPaths_EnvItem (items : list MicromambaEnvItem) :
  pickerEnvPaths (EnvItem <$> items) = envPath <$> items.
Proof.
  unfold pickerEnvPaths. induction items as [|item items IH]; [done|].
  simpl. f_equal. exact IH.
Qed.

Lemma pickerEnvPaths_pickerItems (g : Groups) :
  pickerEnvPaths (pickerItems g) = (envPath <$> workspaceItems g) ++ (envPath <$> rootItems g).
Proof.
  assert (∀ title items,
    pickerEnvPaths (if (0 <? length items)%nat
                    then Separator title :: (EnvItem <$> items) else [])
    = envPath <$> items) as Hgroup.
  { intros title [|item items]; [done|]. apply (pickerEnvPaths_EnvItem (item :: items)). }
  unfold pickerItems. unfold pickerEnvPaths at 1. rewrite omap_app.
  fold pickerEnvPaths. by rewrite !Hgroup.
Qed.

Lemma classify_envPaths (lines : list string) :
  envPath <$> workspaceItems (classify P workspace storedPath configRootPrefix lines)
    = normalize P <$> filter inWorkspace lines
  ∧ envPath <$> rootItems (classify P workspace storedPath configRootPrefix lines)
    = normalize P <$> filter inRoot lines.
Proof.
  unfold classify. rewrite classify_workspaceItems, classify_rootItems. simpl.
  rewrite <- !list_fmap_compose. split; apply list_fmap_ext; intros i line _; simpl;
    apply makeItem_envPath.
Qed.

(** X10. The picker offers the normalized paths of the registry lines under the
    workspace folder, in file order, then those of the lines under the root
    prefix that are not under the workspace folder, in file order; a line
    under neither is not offered, and the picker is empty exactly when no
    line is under either. *)
Theorem picker_lists_registry_in_order (lines : list string) :
  pickerEnvPaths (pickerItems (classify P workspace storedPath configRootPrefix lines))
    = (normalize P <$> filter inWorkspace lines) ++ (normalize P <$> filter inRoot lines)
  ∧ (pickerItems (classify P workspace storedPath configRootPrefix lines) = []
     ↔ ∀ line, line ∈ lines → ¬ inWorkspace line ∧ ¬ inRoot line).
Proof.
  destruct (classify_envPaths lines) as [Hw Hr].
  split; [by rewrite pickerEnvPaths_pickerItems, Hw, Hr|].
  set (g := classify P workspace storedPath configRootPrefix lines) in *.
  assert (pickerItems g = [] ↔ workspaceItems g = [] ∧ rootItems g = []) as ->.
  { unfold pickerItems. destruct (workspaceItems g), (rootItems g); simpl; split;
      try done; by intros []. }
  assert (∀ (Q : string → Prop) `{∀ x, Decision (Q x)} (items : list MicromambaEnvItem),
            envPath <$> items = normalize P <$> filter Q lines →
            (items = [] ↔ ∀ line, line ∈ lines → ¬ Q line)) as Hnil.
  { intros Q HQ items Heq. split.
    - intros -> line Hline HQl. symmetry in Heq. apply fmap_nil_inv in Heq.
      by apply (filter_nil_not_elem_of Q lines line).
    - intros Hnone. apply (fmap_nil_inv envPath). rewrite Heq.
      by rewrite (filter_none Q lines Hnone). }
  rewrite (Hnil inWorkspace _ _ Hw), (Hnil inRoot _ _ Hr). split.
  - intros [H1 H2] line Hline. split; [by apply H1|by apply H2].
  - intros Hnone. split; intros line Hline; by apply Hnone.
Qed.

End picker.


Lemma filter_all_false {A} (l : list A) (Q : A → Prop) `{∀ x, Decision (Q x)} :
  (∀ x, ¬ Q x) → filter Q l = [].
Proof. intros HQ. apply filter_none. intros x _. apply HQ. Qed.

(** X11. Without an open workspace folder no entry is a workspace entry; without
    a root prefix no entry is a root entry; without both the picker is empty
    and the outcome of the listing is the notice that nothing matches. *)
Theorem classify_without_context (P : Platform) (storedPath : option string)
    (lines : list string) :
  (∀ configRootPrefix,
     workspaceItems (classify P None storedPath configRootPrefix lines) = [])
  ∧ (∀ workspace, rootItems (classify P workspace storedPath "" lines) = [])
  ∧ pickerItems (classify P None storedPath "" lines) = [].
Proof.
  assert (∀ configRootPrefix,
            workspaceItems (classify P None storedPath configRootPrefix lines) = []) as Hw.
  { intros configRootPrefix. unfold classify. rewrite classify_workspaceItems. simpl.
    by rewrite filter_all_false. }
  assert (∀ workspace, rootItems (classify P workspace storedPath "" lines) = []) as Hr.
  { intros workspace. unfold classify. rewrite classify_rootItems. simpl.
    rewrite filter_all_false; [done|]. by intros line [_ ?]. }
  split; [exact Hw|]. split; [exact Hr|].
  unfold pickerItems. by rewrite Hw, Hr.
Qed.

(** ** Activation and the listing that follows *)

Lemma setEnvironment_execLog (P : Platform) (E : Env) (w : World)
    (envPath : string) (manualExe : option string) :
  execLog (setEnvironment P E w envPath manualExe)
  = execLog w ++ [envDumpCommand P (chooseBinary E w manualExe) envPath].
Proof.
  unfold setEnvironment. destruct (exec E _) as [stdout|message stderr]; [|done].
  simpl.
  match goal with |- context [configurePython P E envPath ?v ?w0] =>
    destruct (configurePython_frame P E envPath v w0) as (_ & _ & H3 & _) end.
  by rewrite H3.
Qed.

Lemma setEnvironment_persisted (P : Platform) (E : Env) (w : World)
    (envPath : string) (manualExe : option string) :
  currentMicromambaEnvPath (setEnvironment P E w envPath manualExe)
  = match exec E (envDumpCommand P (chooseBinary E w manualExe) envPath) with
    | ExecOk _ => Some envPath
    | ExecErr _ _ => currentMicromambaEnvPath w
    end.
Proof. unfold setEnvironment. by destruct (exec E _). Qed.

Lemma setEnvironment_envCollection (P : Platform) (E : Env) (w : World)
    (envPath : string) (manualExe : option string) :
  envCollection (setEnvironment P E w envPath manualExe)
  = match exec E (envDumpCommand P (chooseBinary E w manualExe) envPath) with
    | ExecOk stdout => fixMissingVariables P envPath (parseEnvOutput stdout)
    | ExecErr _ _ => envCollection w
    end.
Proof.
  unfold setEnvironment. destruct (exec E _) as [stdout|message stderr]; [|done].
  simpl.
  match goal with |- context [configurePython P E envPath ?v ?w0] =>
    destruct (configurePython_frame P E envPath v w0) as (H1 & _) end.
  rewrite H1. simpl. apply foldl_insert_entries.
Qed.




(** X13. Restoring the last environment on startup never changes which
    environment is persisted, whether the activation succeeds, fails or is
    not attempted; and with no persisted path (or an empty one) it runs no
    subprocess and touches neither the terminal variables nor the files. *)
Theorem activate_keeps_selection (P : Platform) (E : Env) (w : World) :
  currentMicromambaEnvPath (activate P E w) = currentMicromambaEnvPath w
  ∧ (JS.truthyOpt (currentMicromambaEnvPath w) = false →
     execLog (activate P E w) = execLog w
     ∧ envCollection (activate P E w) = envCollection w
     ∧ files (activate P E w) = files w
     ∧ statusBarText (activate P E w) = "$(circle-slash) Micromamba").
Proof.
  unfold activate. destruct (currentMicromambaEnvPath w) as [lastEnvPath|] eqn:Hlast.
  - simpl. destruct (JS.truthy lastEnvPath) eqn:Ht; [|done].
    split; [|done]. rewrite setEnvironment_persisted.
    by destruct (exec E _).
  - done.
Qed.

(** X14. Accepting the picker: a separator or an empty selection changes nothing;
    an environment is activated by exactly one subprocess, which runs the
    executable of the configuration on the path of the entry. *)
Theorem acceptSelection_runs_configured_exe (P : Platform) (E : Env) (w : World)
    (config : MambaConfig) (item : MicromambaEnvItem) :
  exe config ≠ "" →
  execLog (acceptSelection P E w config (Some (EnvItem item)))
    = execLog w ++ [envDumpCommand P (exe config) (envPath item)]
  ∧ (∀ title, acceptSelection P E w config (Some (Separator title)) = w)
  ∧ acceptSelection P E w config None = w.
Proof.
  intros Hexe. split; [|done]. unfold acceptSelection.
  rewrite setEnvironment_execLog. unfold chooseBinary. simpl.
  apply truthy_true in Hexe. by rewrite Hexe.
Qed.

Lemma acceptSelection_runs_configured_exe_witness :
  execLog (acceptSelection posix workingEnv sampleWorld
             {| rootPrefix := "/opt/micromamba"; exe := "/usr/bin/micromamba";
                envTxtPath := "/home/u/.conda/environments.txt" |}
             (Some (EnvItem {| label := "$(globe) envA";
                               description := "/opt/micromamba/envs/envA";
                               envPath := "/opt/micromamba/envs/envA" |})))
  = execLog sampleWorld
    ++ [envDumpCommand posix "/usr/bin/micromamba" "/opt/micromamba/envs/envA"].
Proof.
  apply (proj1 (acceptSelection_runs_configured_exe posix workingEnv sampleWorld
                  {| rootPrefix := "/opt/micromamba"; exe := "/usr/bin/micromamba";
                     envTxtPath := "/home/u/.conda/environments.txt" |}
                  {| label := "$(globe) envA";
                     description := "/opt/micromamba/envs/envA";
                     envPath := "/opt/micromamba/envs/envA" |}
                  ltac:(discriminate))).
Defined.

(** X15. An environment manager that prints no line with [=] (for instance no
    output at all) still counts as a success: the terminal then holds the
    two default variables and nothing else. *)
Theorem setEnvironment_without_variables (P : Platform) (E : Env) (w : World)
    (envPath : string) (manualExe : option string) (stdout : string) :
  exec E (envDumpCommand P (chooseBinary E w manualExe) envPath) = ExecOk stdout →
  (∀ line, line ∈ JS.splitLines stdout → JS.includes "=" line = false) →
  envCollection (setEnvironment P E w envPath manualExe)
  = <["CONDA_PREFIX" := envPath]> (<["CONDA_DEFAULT_ENV" := path_basename P envPath]> ∅).
Proof.
  intros Hok Hlines. rewrite setEnvironment_envCollection, Hok.
  assert (parseEnvOutput stdout = ∅) as ->; [|done].
  unfold parseEnvOutput. generalize (∅ : gmap string string).
  induction (JS.splitLines stdout) as [|line lines IH]; intros m; [done|].
  simpl. rewrite parseLine_cut.
  assert (cutAt "=" line = None) as -> by (apply cutAt_None, Hlines; left).
  apply IH. intros l Hl. apply Hlines. by right.
Qed.

Lemma setEnvironment_without_variables_witness :
  envCollection
    (setEnvironment posix
       {| settings := noSettings; workspaceFolder := None;
          exec := λ _, ExecOk ("no such environment" +:+ nl); writable := λ _, true |}
       sampleWorld "/opt/micromamba/envs/envA" None)
  = <["CONDA_PREFIX" := "/opt/micromamba/envs/envA"]>
      (<["CONDA_DEFAULT_ENV" := path_basename posix "/opt/micromamba/envs/envA"]> ∅).
Proof.
  apply (setEnvironment_without_variables posix
           {| settings := noSettings; workspaceFolder := None;
              exec := λ _, ExecOk ("no such environment" +:+ nl); writable := λ _, true |}
           sampleWorld "/opt/micromamba/envs/envA" None ("no such environment" +:+ nl)).
  - reflexivity.
  - intros line Hline. vm_compute in Hline.
    apply elem_of_cons in Hline as [->|Hline]; [reflexivity|].
    apply list_elem_of_singleton in Hline as ->. reflexivity.
Defined.


(** ** The cached executable *)

Lemma getMambaConfig_caches (P : Platform) (E : Env) (w : World) :
  cachedMambaConfig (getMambaConfig P E w).2 = Some (getMambaConfig P E w).1.
Proof.
  unfold getMambaConfig. destruct (cachedMambaConfig w) as [cached|] eqn:Hc; [done|].
  destruct (negb _ || negb _); [|done].
  by destruct (fetchMambaVarsFromShell P (exec E)) as [[shellRoot shellExe]|err].
Qed.

(** X16. Once the configuration has been loaded, an activation that is given no
    executable (the one at startup) runs the executable of the cached
    configuration, whatever the settings say by then. *)
Theorem setEnvironment_uses_cached_exe (P : Platform) (E E' : Env) (w : World)
    (envPath : string) :
  execLog (setEnvironment P E' (getMambaConfig P E w).2 envPath None)
  = execLog (getMambaConfig P E w).2
    ++ [envDumpCommand P (exe (getMambaConfig P E w).1) envPath].
Proof.
  rewrite setEnvironment_execLog. unfold chooseBinary. simpl.
  by rewrite getMambaConfig_caches.
Qed.

(** ** Line endings of the subprocess output *)

Lemma parseLine_blank (m : gmap string string) (line : string) :
  ¬ nonBlank line → parseLine m line = m.
Proof.
  intros Hb. rewrite parseLine_cut.
  assert (cutAt "=" line = None) as ->; [|done].
  apply cutAt_None, blank_includes; [done|].
  unfold nonBlank in Hb. by destruct (decide (JS.trim line = "")).
Qed.

Lemma foldl_parseLine_filter (lines : list string) (m : gmap string string) :
  foldl parseLine m (filter nonBlank lines) = foldl parseLine m lines.
Proof.
  revert m. induction lines as [|line lines IH]; intros m; [done|].
  rewrite filter_cons. destruct (decide (nonBlank line)) as [Hb|Hb]; simpl.
  - apply IH.
  - by rewrite IH, (parseLine_blank _ _ Hb).
Qed.

(** X17. The parsed variables do not depend on how the lines of the output are
    separated: for lines separated by non-empty runs of CR and LF in any
    mixture (the CR LF of [cmd /c set] as well as the LF of [env]), with or
    without a run in front or at the end, the result is that of reading the
    lines one after the other. *)
Theorem parseEnvOutput_line_endings (lead : string) (entries : list (string * string))
    (lastEntry : string) :
  lineBreakRun lead = true →
  Forall (λ e, noLineBreak e.1 = true ∧ lineBreakRun e.2 = true ∧ e.2 ≠ "") entries →
  noLineBreak lastEntry = true →
  parseEnvOutput (registryText lead entries lastEntry)
  = foldl parseLine ∅ (entries.*1 ++ [lastEntry]).
Proof.
  intros Hlead Hentries Hlast. unfold parseEnvOutput, registryText.
  rewrite <- foldl_parseLine_filter.
  rewrite (filter_splitLines_run _ _ Hlead).
  rewrite (filter_splitLines_registry _ _ Hentries Hlast).
  apply foldl_parseLine_filter.
Qed.

Lemma parseEnvOutput_line_endings_witness :
  parseEnvOutput (registryText "" [("FOO=bar", crlf); ("BAZ=1=2", crlf)] "")
  = foldl parseLine ∅ ["FOO=bar"; "BAZ=1=2"; ""].
Proof.
  apply (parseEnvOutput_line_endings "" [("FOO=bar", crlf); ("BAZ=1=2", crlf)] "").
  - reflexivity.
  - repeat constructor; done.
  - reflexivity.
Defined.

(** ** The earlier revision *)

Lemma legacy_configurePython_frame (P : Platform) (E : Env) (envPath : string)
    (envVars : gmap string string) (w : World) :
  envCollection (Legacy.configurePython P E envPath envVars w) = envCollection w
  ∧ currentMicromambaEnvPath (Legacy.configurePython P E envPath envVars w)
    = currentMicromambaEnvPath w
  ∧ execLog (Legacy.configurePython P E envPath envVars w) = execLog w
  ∧ ranCommands (Legacy.configurePython P E envPath envVars w) = ranCommands w.
Proof.
  unfold Legacy.configurePython. destruct (workspaceFolder E) as [rootPath|]; [|done].
  destruct (writeEnvFile_frame E (path_join P [rootPath; ".env"]) envVars w)
    as (H1 & H2 & _ & H3 & H4 & _).
  by destruct (files _ !! _).
Qed.

Lemma legacy_configurePython_files (P : Platform) (E : Env) (envPath : string)
    (envVars : gmap string string) (w : World) :
  files (Legacy.configurePython P E envPath envVars w)
  = files (configurePython P E envPath envVars w).
Proof.
  unfold Legacy.configurePython, configurePython.
  destruct (workspaceFolder E) as [rootPath|]; [|done].
  by destruct (files _ !! _).
Qed.

(** X18. The earlier revision is atomic on failure as well: a failing subprocess
    leaves the terminal variables, the files, the persisted path and the
    Python setting as they were, and reports the error. *)
Theorem legacy_setEnvironment_atomic (P : Platform) (E : Env) (w : World)
    (envPath : string) (manualExe : option string) (message stderr : string) :
  exec E (envDumpCommand P (chooseBinary E w manualExe) envPath) = ExecErr message stderr →
  envCollection (Legacy.setEnvironment P E w envPath manualExe) = envCollection w
  ∧ files (Legacy.setEnvironment P E w envPath manualExe) = files w
  ∧ currentMicromambaEnvPath (Legacy.setEnvironment P E w envPath manualExe)
    = currentMicromambaEnvPath w
  ∧ defaultInterpreterPath (Legacy.setEnvironment P E w envPath manualExe)
    = defaultInterpreterPath w
  ∧ statusBarText (Legacy.setEnvironment P E w envPath manualExe)
    = "$(error) Micromamba: Error"
  ∧ shownMessages (Legacy.setEnvironment P E w envPath manualExe)
    = shownMessages w
      ++ ["Error loading env: " +:+ (if JS.truthy stderr then stderr else message)].
Proof. intros Herr. unfold Legacy.setEnvironment. by rewrite Herr. Qed.

Lemma legacy_setEnvironment_atomic_witness :
  envCollection (Legacy.setEnvironment posix failingEnv sampleWorld
                   "/opt/micromamba/envs/envA" None)
  = envCollection sampleWorld.
Proof.
  apply (legacy_setEnvironment_atomic posix failingEnv sampleWorld
           "/opt/micromamba/envs/envA" None "spawn ENOENT" "").
  reflexivity.
Defined.

(** X19. The two revisions differ on success by the default variables only: the
    terminal of the later revision holds the variables of the earlier one
    completed by [fixMissingVariables]; both persist the selected path, show
    the same status and run the same single subprocess; and the earlier
    revision never runs a command of the Python extension. *)
Theorem revisions_differ_by_defaults (P : Platform) (E : Env) (w : World)
    (envPath : string) (manualExe : option string) (stdout : string) :
  exec E (envDumpCommand P (chooseBinary E w manualExe) envPath) = ExecOk stdout →
  envCollection (Legacy.setEnvironment P E w envPath manualExe) = parseEnvOutput stdout
  ∧ envCollection (setEnvironment P E w envPath manualExe)
    = fixMissingVariables P envPath
        (envCollection (Legacy.setEnvironment P E w envPath manualExe))
  ∧ currentMicromambaEnvPath (Legacy.setEnvironment P E w envPath manualExe)
    = currentMicromambaEnvPath (setEnvironment P E w envPath manualExe)
  ∧ statusBarText (Legacy.setEnvironment P E w envPath manualExe)
    = statusBarText (setEnvironment P E w envPath manualExe)
  ∧ execLog (Legacy.setEnvironment P E w envPath manualExe)
    = execLog (setEnvironment P E w envPath manualExe)
  ∧ ranCommands (Legacy.setEnvironment P E w envPath manualExe) = ranCommands w.
Proof.
  intros Hok.
  assert (envCollection (Legacy.setEnvironment P E w envPath manualExe)
          = parseEnvOutput stdout) as Hlegacy.
  { unfold Legacy.setEnvironment. rewrite Hok. simpl.
    match goal with |- context [Legacy.configurePython P E envPath ?v ?w0] =>
      destruct (legacy_configurePython_frame P E envPath v w0) as (H1 & _) end.
    rewrite H1. simpl. apply foldl_insert_entries. }
  split; [exact Hlegacy|]. rewrite Hlegacy.
  rewrite setEnvironment_envCollection, setEnvironment_persisted, setEnvironment_execLog, Hok.
  split; [done|].
  unfold Legacy.setEnvironment, setEnvironment. rewrite Hok. simpl.
  match goal with |- context [Legacy.configurePython P E envPath ?v ?w0] =>
    destruct (legacy_configurePython_frame P E envPath v w0) as (_ & _ & H3 & H4) end.
  by rewrite H3, H4.
Qed.

Lemma revisions_differ_by_defaults_witness :
  envCollection (Legacy.setEnvironment posix workingEnv sampleWorld
                   "/opt/micromamba/envs/envA" None)
  = parseEnvOutput ("FOO=bar" +:+ nl +:+ "BAZ=1=2" +:+ nl).
Proof.
  apply (revisions_differ_by_defaults posix workingEnv sampleWorld
           "/opt/micromamba/envs/envA" None ("FOO=bar" +:+ nl +:+ "BAZ=1=2" +:+ nl)).
  reflexivity.
Defined.



Example legacy_python_setting_scenario :
  defaultInterpreterPath
    (Legacy.setEnvironment posix workingEnv pythonWorld "/opt/micromamba/envs/envA" None)
  = Some "/opt/micromamba/envs/envA/bin/python"
  ∧ defaultInterpreterPath
      (setEnvironment posix workingEnv pythonWorld "/opt/micromamba/envs/envA" None)
    = Some "/opt/micromamba/envs/envA/bin/python".
Proof. vm_compute. done. Qed.

Section legacy_classification.

Variable P : Platform.
Variable currentWorkspacePath : option string.
Variable normalizedRootPrefix : string.

Let step := Legacy.classifyLine P currentWorkspacePath normalizedRootPrefix.

Lemma legacy_classify_workspaceItems (lines : list string) (g : Legacy.Groups) :
  envPath <$> Legacy.workspaceItems (foldl step g lines)
  = (envPath <$> Legacy.workspaceItems g)
    ++ (normalize P
          <$> filter (λ line, underWorkspace currentWorkspacePath (normalize P line) = true)
                lines).
Proof.
  revert g. induction lines as [|line lines IH]; intros g; simpl.
  - by rewrite app_nil_r.
  - rewrite IH, filter_cons. unfold step, Legacy.classifyLine.
    destruct (decide (underWorkspace currentWorkspacePath (normalize P line) = true))
      as [Hw|Hw].
    + rewrite Hw. simpl. by rewrite fmap_app, <- app_assoc.
    + apply not_true_is_false in Hw. rewrite Hw.
      by destruct (JS.truthy normalizedRootPrefix && _).
Qed.

Lemma legacy_classify_rootItems (lines : list string) (g : Legacy.Groups) :
  envPath <$> Legacy.rootItems (foldl step g lines)
  = (envPath <$> Legacy.rootItems g)
    ++ (normalize P
          <$> filter (λ line,
                        underWorkspace currentWorkspacePath (normalize P line) = false
                        ∧ JS.truthy normalizedRootPrefix
                          && JS.startsWith (normalize P line) normalizedRootPrefix = true)
                lines).
Proof.
  revert g. induction lines as [|line lines IH]; intros g; simpl.
  - by rewrite app_nil_r.
  - rewrite IH, filter_cons. unfold step, Legacy.classifyLine.
    destruct (decide (_ ∧ _)) as [[Hw Hr]|Hr].
    + rewrite Hw, Hr. simpl. by rewrite fmap_app, <- app_assoc.
    + destruct (underWorkspace currentWorkspacePath (normalize P line)); [done|].
      destruct (JS.truthy normalizedRootPrefix && _); [|done].
      by destruct Hr.
Qed.

End legacy_classification.

Lemma legacy_pickerEnvPaths (g : Legacy.Groups) :
  pickerEnvPaths (Legacy.pickerItems g)
  = (envPath <$> Legacy.workspaceItems g) ++ (envPath <$> Legacy.rootItems g).
Proof.
  assert (∀ title items,
    pickerEnvPaths (if (0 <? length items)%nat
                    then Separator title :: (EnvItem <$> items) else [])
    = envPath <$> items) as Hgroup.
  { intros title [|item items]; [done|]. apply (pickerEnvPaths_EnvItem (item :: items)). }
  unfold Legacy.pickerItems. unfold pickerEnvPaths at 1. rewrite omap_app.
  fold pickerEnvPaths. by rewrite !Hgroup.
Qed.

(** X21. Both revisions offer the same environments in the same order: marking
    the active entry and the icons of the later revision change the labels
    and descriptions of the picker, not which registry lines it offers nor
    the paths that accepting them activates. *)
Theorem revisions_offer_same_environments (P : Platform) (workspace storedPath : option string)
    (configRootPrefix : string) (lines : list string) :
  envPath <$> Legacy.workspaceItems (Legacy.classify P workspace configRootPrefix lines)
  = envPath <$> workspaceItems (classify P workspace storedPath configRootPrefix lines)
  ∧ envPath <$> Legacy.rootItems (Legacy.classify P workspace configRootPrefix lines)
    = envPath <$> rootItems (classify P workspace storedPath configRootPrefix lines)
  ∧ pickerEnvPaths (Legacy.pickerItems (Legacy.classify P workspace configRootPrefix lines))
    = pickerEnvPaths (pickerItems (classify P workspace storedPath configRootPrefix lines)).
Proof.
  destruct (classify_envPaths P workspace storedPath configRootPrefix lines) as [Hw Hr].
  assert (envPath <$> Legacy.workspaceItems (Legacy.classify P workspace configRootPrefix lines)
          = envPath <$> workspaceItems (classify P workspace storedPath configRootPrefix lines))
    as Hws.
  { rewrite Hw. unfold Legacy.classify. by rewrite legacy_classify_workspaceItems. }
  assert (envPath <$> Legacy.rootItems (Legacy.classify P workspace configRootPrefix lines)
          = envPath <$> rootItems (classify P workspace storedPath configRootPrefix lines))
    as Hrs.
  { rewrite Hr. unfold Legacy.classify. by rewrite legacy_classify_rootItems. }
  split; [exact Hws|]. split; [exact Hrs|].
  by rewrite legacy_pickerEnvPaths, pickerEnvPaths_pickerItems, Hws, Hrs.
Qed.
